(** * Viewport transform engine of the infinite canvas

    A shallow embedding of [src/components/canva.tsx] (the variant with
    zoom support): the grid helper [gridToPixel], the React state of
    [InfiniteCanvas] and its keyboard, wheel, mouse and touch handlers,
    followed by what the component renders (grid lines, coordinate labels,
    debug readout), the variant of the same file without zoom ([Legacy])
    and the state and view of [additions/BitcoinPrice.tsx].

    JavaScript numbers are modelled by [JS.number]: exact real arithmetic on
    the finite values, together with the three special values of IEEE 754
    ([Infinity], [-Infinity], [NaN]) and the rules by which they arise and
    propagate (division by zero, [Math.max]/[Math.min] on [NaN], ...).
    Rounding, overflow and the sign of zero are not modelled: an equation
    between numbers is the closed form of what a handler computes, read
    over the reals; results on the zoom are stated as bounds and
    monotonicity, which rounding preserves. *)

From Stdlib Require Import Reals Lra List String Bool ZArith DecimalString Lia.
Import ListNotations.

Open Scope R_scope.

(* ================================================================== *)
(** ** JavaScript numbers *)
(* ================================================================== *)

Module JS.

Inductive number : Type :=
| Fin (r : R)
| PInf
| NInf
| NaN.

Inductive sign : Type := Neg | Zero | Pos.

Definition Rsign (x : R) : sign :=
  if Rlt_dec x 0 then Neg else if Rlt_dec 0 x then Pos else Zero.

(** Sign of a number that is not [NaN]. *)
Definition sgn (a : number) : sign :=
  match a with
  | Fin x => Rsign x
  | PInf => Pos
  | NInf => Neg
  | NaN => Zero
  end.

Definition sign_mul (s t : sign) : sign :=
  match s, t with
  | Zero, _ | _, Zero => Zero
  | Pos, Pos | Neg, Neg => Pos
  | Pos, Neg | Neg, Pos => Neg
  end.

(** The infinity of a given sign; a zero sign stands for an undefined
    form ([0 * Infinity], [0 / 0]) and gives [NaN]. *)
Definition inf_of (s : sign) : number :=
  match s with
  | Pos => PInf
  | Neg => NInf
  | Zero => NaN
  end.

Definition neg (a : number) : number :=
  match a with
  | Fin x => Fin (- x)
  | PInf => NInf
  | NInf => PInf
  | NaN => NaN
  end.

Definition add (a b : number) : number :=
  match a, b with
  | Fin x, Fin y => Fin (x + y)
  | NaN, _ | _, NaN => NaN
  | PInf, NInf | NInf, PInf => NaN
  | PInf, _ | _, PInf => PInf
  | NInf, _ | _, NInf => NInf
  end.

Definition sub (a b : number) : number := add a (neg b).

Definition mul (a b : number) : number :=
  match a, b with
  | Fin x, Fin y => Fin (x * y)
  | NaN, _ | _, NaN => NaN
  | _, _ => inf_of (sign_mul (sgn a) (sgn b))
  end.

(** [a / b].  A zero divisor is taken as [+0]: [x / 0] is the infinity of
    the sign of [x], and [0 / 0] is [NaN]. *)
Definition div (a b : number) : number :=
  match a, b with
  | NaN, _ | _, NaN => NaN
  | Fin x, Fin y =>
      if Req_dec_T y 0 then inf_of (Rsign x) else Fin (x / y)
  | Fin _, _ => Fin 0
  | _, Fin y =>
      inf_of (sign_mul (sgn a) (if Rlt_dec y 0 then Neg else Pos))
  | _, _ => NaN
  end.

(** [Math.max(a, b)] and [Math.min(a, b)]: [NaN] as soon as one argument
    is [NaN]. *)
Definition max (a b : number) : number :=
  match a, b with
  | NaN, _ | _, NaN => NaN
  | PInf, _ | _, PInf => PInf
  | NInf, c | c, NInf => c
  | Fin x, Fin y => Fin (Rmax x y)
  end.

Definition min (a b : number) : number :=
  match a, b with
  | NaN, _ | _, NaN => NaN
  | NInf, _ | _, NInf => NInf
  | PInf, c | c, PInf => c
  | Fin x, Fin y => Fin (Rmin x y)
  end.

(** [Math.hypot(a, b)]: [+Infinity] if an argument is infinite, otherwise
    [NaN] if one is [NaN], otherwise the Euclidean norm. *)
Definition hypot (a b : number) : number :=
  match a, b with
  | Fin x, Fin y => Fin (sqrt (x * x + y * y))
  | PInf, _ | NInf, _ | _, PInf | _, NInf => PInf
  | _, _ => NaN
  end.

(** Strict equality [a === b] on numbers: [NaN] equals nothing. *)
Definition eqb (a b : number) : bool :=
  match a, b with
  | Fin x, Fin y => if Req_dec_T x y then true else false
  | PInf, PInf | NInf, NInf => true
  | _, _ => false
  end.

(** [a < b] on numbers: false as soon as one argument is [NaN]. *)
Definition ltb (a b : number) : bool :=
  match a, b with
  | NaN, _ | _, NaN => false
  | Fin x, Fin y => if Rlt_dec x y then true else false
  | PInf, _ | _, NInf => false
  | NInf, _ | _, PInf => true
  end.

Definition is_finite (a : number) : bool :=
  match a with Fin _ => true | _ => false end.

End JS.

Import JS.

Declare Scope js_scope.
Delimit Scope js_scope with js.
Bind Scope js_scope with number.
Infix "+" := add : js_scope.
Infix "-" := sub : js_scope.
Infix "*" := mul : js_scope.
Infix "/" := div : js_scope.
Notation "- a" := (neg a) : js_scope.


(* ================================================================== *)
(** ** Configuration and the coordinate mapper *)
(* ================================================================== *)

Open Scope string_scope.

(** [GRID] (the two display flags play no part in the arithmetic). *)
Definition GRID_cellSize : number := Fin 400.
Definition GRID_centerX : number := Fin 5000.
Definition GRID_centerY : number := Fin 5000.

(** [ZOOM] *)
Definition ZOOM_min : number := Fin 0.2.
Definition ZOOM_max : number := Fin 2.0.
Definition ZOOM_step : number := Fin 0.1.
Definition ZOOM_default : number := Fin 1.0.

Record Point : Type := mkPoint { x : number; y : number }.

(** [gridToPixel] *)
Definition gridToPixel (gridX gridY : number) : Point :=
  {| x := (GRID_centerX + gridX * GRID_cellSize)%js;
     y := (GRID_centerY + gridY * GRID_cellSize)%js |}.

(** The inverse arithmetic on a surface position. *)
Definition pixelToGrid (p : Point) : Point :=
  {| x := ((x p - GRID_centerX) / GRID_cellSize)%js;
     y := ((y p - GRID_centerY) / GRID_cellSize)%js |}.

(* ================================================================== *)
(** ** Component state *)
(* ================================================================== *)

(** The [useState] cells of [InfiniteCanvas]. *)
Record State : Type := mkState {
  position : Point;
  zoomLevel : number;
  isDragging : bool;
  startPos : Point;
  lastDistance : option number;
  showTip : bool;
  showDebug : bool;
  showZoomControls : bool
}.

Definition setPosition (p : Point) (s : State) : State :=
  mkState p (zoomLevel s) (isDragging s) (startPos s) (lastDistance s)
          (showTip s) (showDebug s) (showZoomControls s).
Definition setZoomLevel (z : number) (s : State) : State :=
  mkState (position s) z (isDragging s) (startPos s) (lastDistance s)
          (showTip s) (showDebug s) (showZoomControls s).
Definition setIsDragging (b : bool) (s : State) : State :=
  mkState (position s) (zoomLevel s) b (startPos s) (lastDistance s)
          (showTip s) (showDebug s) (showZoomControls s).
Definition setStartPos (p : Point) (s : State) : State :=
  mkState (position s) (zoomLevel s) (isDragging s) p (lastDistance s)
          (showTip s) (showDebug s) (showZoomControls s).
Definition setLastDistance (d : option number) (s : State) : State :=
  mkState (position s) (zoomLevel s) (isDragging s) (startPos s) d
          (showTip s) (showDebug s) (showZoomControls s).
Definition setShowDebug (b : bool) (s : State) : State :=
  mkState (position s) (zoomLevel s) (isDragging s) (startPos s)
          (lastDistance s) (showTip s) b (showZoomControls s).
Definition setShowZoomControls (b : bool) (s : State) : State :=
  mkState (position s) (zoomLevel s) (isDragging s) (startPos s)
          (lastDistance s) (showTip s) (showDebug s) b.

(** The initial values given to [useState]. *)
Definition initialState : State :=
  {| position := {| x := Fin 0; y := Fin 0 |};
     zoomLevel := ZOOM_default;
     isDragging := false;
     startPos := {| x := Fin 0; y := Fin 0 |};
     lastDistance := None;
     showTip := true;
     showDebug := false;
     showZoomControls := false |}.

(* ================================================================== *)
(** ** The environment: window, bounding rectangle, events *)
(* ================================================================== *)

(** What the code reads from [window]: its inner size and whether the
    query string carries [debug=true]. *)
Record Window : Type := mkWindow {
  innerWidth : number;
  innerHeight : number;
  debugParam : bool
}.

(** The part of [getBoundingClientRect()] that the handlers read. *)
Record DOMRect : Type := mkRect { left : number; top : number }.

(** A client position: a [Touch], or the position of a [MouseEvent]. *)
Record Touch : Type := mkTouch { clientX : number; clientY : number }.

Record WheelEvent : Type := mkWheel {
  ctrlKey : bool;
  deltaY : number;
  wheelClient : Touch
}.

(** The viewport position that puts the grid origin in the middle. *)
Definition centered (w : Window) : Point :=
  {| x := (innerWidth w / Fin 2 - GRID_centerX)%js;
     y := (innerHeight w / Fin 2 - GRID_centerY)%js |}.

(** The first effect ("Center the canvas initially"); [None] stands for
    [typeof window === "undefined"]. *)
Definition centerEffect (w : option Window) (s : State) : State :=
  match w with
  | None => s
  | Some w =>
      let s := setPosition (centered w) s in
      let s := if debugParam w then setShowDebug true s else s in
      setShowZoomControls (JS.ltb (innerWidth w) (Fin 768)) s
  end.

(* ================================================================== *)
(** ** Keyboard shortcuts and zoom buttons *)
(* ================================================================== *)

Definition key_is (key a b : string) : bool :=
  String.eqb key a || String.eqb key b.

Definition handleKeyDown (w : Window) (key : string) (s : State) : State :=
  let s := if key_is key "d" "D"
           then setShowDebug (negb (showDebug s)) s else s in
  let s := if key_is key "c" "C"
           then setPosition (centered w) s else s in
  let s := if key_is key "r" "R"
           then setZoomLevel ZOOM_default s else s in
  let s := if key_is key "+" "="
           then setZoomLevel (JS.min (zoomLevel s + ZOOM_step)%js ZOOM_max) s
           else s in
  let s := if key_is key "-" "_"
           then setZoomLevel (JS.max (zoomLevel s - ZOOM_step)%js ZOOM_min) s
           else s in
  s.

Definition zoomIn (s : State) : State :=
  setZoomLevel (JS.min (zoomLevel s + ZOOM_step)%js ZOOM_max) s.

Definition zoomOut (s : State) : State :=
  setZoomLevel (JS.max (zoomLevel s - ZOOM_step)%js ZOOM_min) s.

Definition resetZoom (s : State) : State :=
  setZoomLevel ZOOM_default s.

(* ================================================================== *)
(** ** Wheel zoom *)
(* ================================================================== *)

(** The clamp written [Math.max(ZOOM.min, Math.min(ZOOM.max, z))]. *)
Definition clampZoom (z : number) : number :=
  JS.max ZOOM_min (JS.min ZOOM_max z).

(** The new position that both zoom handlers compute around a focal
    point [(fx, fy)]. *)
Definition zoomAround (fx fy scaleFactor : number) (p : Point) : Point :=
  {| x := (fx - (fx - x p) * scaleFactor)%js;
     y := (fy - (fy - y p) * scaleFactor)%js |}.

(** [handleWheel]; [rect] is [canvasRef.current?.getBoundingClientRect()],
    [None] when the ref is empty. *)
Definition handleWheel (rect : option DOMRect) (e : WheelEvent) (s : State)
  : State :=
  if negb (ctrlKey e) then s else
  let delta := (deltaY e * Fin (-0.01))%js in
  let newZoomLevel := clampZoom (zoomLevel s + delta * ZOOM_step)%js in
  if negb (JS.eqb newZoomLevel (zoomLevel s)) then
    match rect with
    | None => s
    | Some rect =>
        let mouseX := (clientX (wheelClient e) - left rect)%js in
        let mouseY := (clientY (wheelClient e) - top rect)%js in
        let scaleFactor := (newZoomLevel / zoomLevel s)%js in
        let newPosition := zoomAround mouseX mouseY scaleFactor (position s) in
        setPosition newPosition (setZoomLevel newZoomLevel s)
    end
  else s.

(* ================================================================== *)
(** ** Mouse drag *)
(* ================================================================== *)

(** The drag anchor stored in [startPos]: the client position minus the
    current position. *)
Definition anchorAt (t : Touch) (s : State) : Point :=
  {| x := (clientX t - x (position s))%js;
     y := (clientY t - y (position s))%js |}.

(** The position a move event sets while dragging. *)
Definition draggedTo (t : Touch) (s : State) : Point :=
  {| x := (clientX t - x (startPos s))%js;
     y := (clientY t - y (startPos s))%js |}.

Definition handleMouseDown (e : Touch) (s : State) : State :=
  setStartPos (anchorAt e s) (setIsDragging true s).

Definition handleMouseMove (e : Touch) (s : State) : State :=
  if negb (isDragging s) then s else setPosition (draggedTo e s) s.

Definition handleMouseUp (s : State) : State :=
  setIsDragging false s.

(* ================================================================== *)
(** ** Touch: one-finger drag and two-finger pinch *)
(* ================================================================== *)

(** Distance between two contacts. *)
Definition touchDistance (touch1 touch2 : Touch) : number :=
  hypot (clientX touch1 - clientX touch2)%js
        (clientY touch1 - clientY touch2)%js.

Definition handleTouchStart (touches : list Touch) (s : State) : State :=
  match touches with
  | [touch1; touch2] =>
      let initialDistance := touchDistance touch1 touch2 in
      setLastDistance (Some initialDistance) s
  | [touch1] =>
      setStartPos (anchorAt touch1 s) (setIsDragging true s)
  | _ => s
  end.

(** [handleTouchMove]; [rect] is [canvas.getBoundingClientRect()]. *)
Definition handleTouchMove (rect : DOMRect) (touches : list Touch) (s : State)
  : State :=
  match touches, lastDistance s with
  | [touch1; touch2], Some lastDist =>
      let currentDistance := touchDistance touch1 touch2 in
      let ratio := (currentDistance / lastDist)%js in
      let newZoomLevel := clampZoom (zoomLevel s * ratio)%js in
      let midX := ((clientX touch1 + clientX touch2) / Fin 2)%js in
      let midY := ((clientY touch1 + clientY touch2) / Fin 2)%js in
      let midpointX := (midX - left rect)%js in
      let midpointY := (midY - top rect)%js in
      let scaleFactor := (newZoomLevel / zoomLevel s)%js in
      let newPosition :=
        zoomAround midpointX midpointY scaleFactor (position s) in
      setLastDistance (Some currentDistance)
        (setPosition newPosition (setZoomLevel newZoomLevel s))
  | [touch1], _ =>
      if isDragging s then setPosition (draggedTo touch1 s) s else s
  | _, _ => s
  end.

(** [handleTouchEnd]; [touches] are the contacts that remain. *)
Definition handleTouchEnd (touches : list Touch) (s : State) : State :=
  let s := if (List.length touches <? 2)%nat then setLastDistance None s else s in
  let s := if (List.length touches =? 0)%nat then setIsDragging false s else s in
  s.

(* ================================================================== *)
(** ** Events and runs *)
(* ================================================================== *)

(** Everything that can reach the component, with what the handler reads
    from the environment at that moment. *)
Inductive Event : Type :=
| Mount (w : option Window)
| KeyDown (w : Window) (key : string)
| Wheel (rect : option DOMRect) (e : WheelEvent)
| MouseDown (e : Touch)
| MouseMove (e : Touch)
| MouseUp
| TouchStart (touches : list Touch)
| TouchMove (rect : DOMRect) (touches : list Touch)
| TouchEnd (touches : list Touch)
| ClickZoomIn
| ClickZoomOut
| ClickResetZoom.

Definition handle (s : State) (ev : Event) : State :=
  match ev with
  | Mount w => centerEffect w s
  | KeyDown w key => handleKeyDown w key s
  | Wheel rect e => handleWheel rect e s
  | MouseDown e => handleMouseDown e s
  | MouseMove e => handleMouseMove e s
  | MouseUp => handleMouseUp s
  | TouchStart touches => handleTouchStart touches s
  | TouchMove rect touches => handleTouchMove rect touches s
  | TouchEnd touches => handleTouchEnd touches s
  | ClickZoomIn => zoomIn s
  | ClickZoomOut => zoomOut s
  | ClickResetZoom => resetZoom s
  end.

(** Events are handled one after the other, each on the state left by the
    previous one. *)
Definition run (s : State) (evs : list Event) : State :=
  fold_left handle evs s.

(* ================================================================== *)
(** ** Content placement *)
(* ================================================================== *)

Record Addition : Type := mkAddition {
  gridX : number;
  gridY : number;
  label : string
}.

(** [ADDITIONS] (the components themselves are opaque to the core). *)
Definition ADDITIONS : list Addition :=
  [ mkAddition (Fin 0) (Fin 0) "QWERTY Logo";
    mkAddition (Fin 1) (Fin 0) "Dancing Cat";
    mkAddition (Fin 1) (Fin (-1)) "Bitcoin Price" ].

(** What the render gives each addition: its [left]/[top] style and the
    debug label, shown only when [showDebug] is set. *)
Definition renderAdditions (s : State) : list (Point * option string) :=
  map (fun a =>
         let pixelPos := gridToPixel (gridX a) (gridY a) in
         (pixelPos, if showDebug s then Some (label a) else None))
      ADDITIONS.

(* ================================================================== *)
(** ** Predicates on states and events *)
(* ================================================================== *)

(** Euclidean norm of [(a, b)]: the finite case of [Math.hypot]. *)
Definition euclid (a b : R) : R := sqrt (a * a + b * b).

(** The zoom is a finite number within [[ZOOM.min, ZOOM.max]]. *)
Definition zoomInBounds (z : number) : Prop :=
  exists r : R, z = Fin r /\ 0.2 <= r <= 2.0.

(** The two sessions, as the state records them: the dragging flag, and
    the stored pinch distance. *)
Definition dragSessionOpen (s : State) : bool := isDragging s.

Definition pinchSessionOpen (s : State) : bool :=
  match lastDistance s with Some _ => true | None => false end.

(** An open drag session: what a press at [(ax, ay)] stored when the
    position was [(ox, oy)] and the zoom [z]. *)
Definition dragOpen (ax ay ox oy : R) (z : number) (s : State) : Prop :=
  isDragging s = true
  /\ startPos s = {| x := Fin (ax - ox); y := Fin (ay - oy) |}
  /\ zoomLevel s = z.

(** Which branch of [handleTouchMove] a move event takes. *)
Definition pinchApplies (touches : list Touch) (s : State) : bool :=
  (List.length touches =? 2)%nat && pinchSessionOpen s.

Definition dragApplies (touches : list Touch) (s : State) : bool :=
  (List.length touches =? 1)%nat && isDragging s.

Definition finiteTouch (t : Touch) : bool :=
  is_finite (clientX t) && is_finite (clientY t).

(** The event data that reaches the zoom are finite numbers. *)
Definition finiteEvent (ev : Event) : bool :=
  match ev with
  | Wheel _ e => is_finite (deltaY e)
  | TouchStart touches | TouchMove _ touches => forallb finiteTouch touches
  | _ => true
  end.

(** A pinch move whose stored distance and current distance are both
    zero. *)
Definition degeneratePinch (s : State) (ev : Event) : bool :=
  match ev, lastDistance s with
  | TouchMove _ [touch1; touch2], Some d =>
      JS.eqb d (Fin 0) && JS.eqb (touchDistance touch1 touch2) (Fin 0)
  | _, _ => false
  end.

(** The zoom is within bounds and the stored pinch distance, if any, is a
    finite distance. *)
Definition stateOK (s : State) : Prop :=
  zoomInBounds (zoomLevel s)
  /\ match lastDistance s with
     | None => True
     | Some d => exists r : R, d = Fin r /\ 0 <= r
     end.

(** A run in which every event carries finite data and no pinch move is
    degenerate in the state it meets. *)
Fixpoint regularRun (s : State) (evs : list Event) : Prop :=
  match evs with
  | [] => True
  | ev :: rest =>
      finiteEvent ev = true /\ degeneratePinch s ev = false
      /\ regularRun (handle s ev) rest
  end.

(* ================================================================== *)
(** ** The pinch as the specification words it *)
(* ================================================================== *)




(** A fresh drag session for the contact that remains after a pinch:
    anchored at the current position and the contact's position. *)
Definition spec_resumeDrag (remaining : Touch) (s : State) : State :=
  setStartPos (anchorAt remaining s) (setIsDragging true s).

(* ================================================================== *)
(** ** Sample inputs *)
(* ================================================================== *)

Definition rect0 : DOMRect := mkRect (Fin 0) (Fin 0).
Definition touchAt (a b : R) : Touch := mkTouch (Fin a) (Fin b).

(** Two contacts land on the same point [(a, b)] and then move together
    to [(c, d)]. *)
Definition samePointPinch (a b c d : R) : list Event :=
  [ TouchStart [touchAt a b; touchAt a b];
    TouchMove rect0 [touchAt c d; touchAt c d] ].


(** A pinch out to three times the distance, then back to one and a half
    times. *)
Definition pinchOutAndBack : list Event :=
  [ TouchStart [touchAt 0 0; touchAt 100 0];
    TouchMove rect0 [touchAt 0 0; touchAt 300 0];
    TouchMove rect0 [touchAt 0 0; touchAt 150 0] ].

(** One finger down, a second one joins. *)
Definition secondContactArrives : list Event :=
  [ TouchStart [touchAt 100 100];
    TouchStart [touchAt 100 100; touchAt 200 100] ].

(** One finger down, a second joins and pinches out, the first lifts. *)
Definition pinchThenLift : list Event :=
  [ TouchStart [touchAt 100 100];
    TouchStart [touchAt 100 100; touchAt 200 100];
    TouchMove rect0 [touchAt 100 100; touchAt 300 100];
    TouchEnd [touchAt 300 100] ].

(* ================================================================== *)
(** ** What the component renders *)
(* ================================================================== *)

(** [Math.round]: the nearest integer, halves upwards. *)
Definition Math_round (a : number) : number :=
  match a with
  | Fin v => Fin (IZR (Zfloor (v + / 2)))
  | other => other
  end.

(** The "Current View" readout of the debug panel. *)
Definition debugView (w : Window) (s : State) : Point :=
  {| x := Math_round (- x (position s) + innerWidth w / Fin 2)%js;
     y := Math_round (- y (position s) + innerHeight w / Fin 2)%js |}.

(** The percentage on the reset button and in the debug panel. *)
Definition zoomPercent (s : State) : number :=
  Math_round (zoomLevel s * Fin 100)%js.

(** The two display flags of [GRID]. *)
Definition GRID_showGridLines : bool := true.
Definition GRID_showCoordinates : bool := true.

(** [gridSize], local to both render helpers. *)
Definition gridSize : Z := 10.

(** The values taken by [i] in [for (let i = lo; i <= hi; i++)]. *)
Definition countFrom (lo hi : Z) : list Z :=
  map (fun k => (lo + Z.of_nat k)%Z) (seq 0 (Z.to_nat (hi - lo + 1))).

(** An integer inside a template literal. *)
Definition showZ (i : Z) : string := NilZero.string_of_int (Z.to_int i).

(** A grid line: its React key and its [left] or [top] style. *)
Inductive GridLine : Type :=
| Vertical (key : string) (leftPx : number)
| Horizontal (key : string) (topPx : number).

(** [renderGridLines]; [None] is the [null] of the early return. *)
Definition renderGridLines (s : State) : option (list GridLine) :=
  if negb GRID_showGridLines && negb (showDebug s) then None else
  let vertical :=
    map (fun i =>
           Vertical ("v-" ++ showZ i)
             (GRID_centerX + Fin (IZR i) * GRID_cellSize)%js)
        (countFrom (- gridSize) gridSize) in
  let horizontal :=
    map (fun i =>
           Horizontal ("h-" ++ showZ i)
             (GRID_centerY + Fin (IZR i) * GRID_cellSize)%js)
        (countFrom (- gridSize) gridSize) in
  Some (vertical ++ horizontal)%list.

Definition lineKey (g : GridLine) : string :=
  match g with Vertical key _ | Horizontal key _ => key end.

(** A coordinate label: the loop variables it was made for, its React
    key, its text and its [left]/[top] style. *)
Record CoordLabel : Type := mkCoordLabel {
  coordX : Z;
  coordY : Z;
  coordKey : string;
  coordText : string;
  coordAt : Point
}.

(** The test that makes [renderCoordinates] skip a cell. *)
Definition denseInner (cx cy : Z) : bool :=
  (Z.abs cx <? 3)%Z && (Z.abs cy <? 3)%Z
  && negb ((cx =? 0)%Z && (cy =? 0)%Z).

(** [renderCoordinates] *)
Definition renderCoordinates (s : State) : option (list CoordLabel) :=
  if negb GRID_showCoordinates && negb (showDebug s) then None else
  Some
    (flat_map
       (fun cx =>
          flat_map
            (fun cy =>
               if denseInner cx cy then []
               else
                 let pixelPos := gridToPixel (Fin (IZR cx)) (Fin (IZR cy)) in
                 [ mkCoordLabel cx cy
                     ("coord-" ++ showZ cx ++ "-" ++ showZ cy)
                     (showZ cx ++ "," ++ showZ cy)
                     pixelPos ])
            (countFrom (- gridSize) gridSize))
       (countFrom (- gridSize) gridSize)).

(* ================================================================== *)
(** ** The variant without zoom *)
(* ================================================================== *)

(** The second [InfiniteCanvas] of [canva.tsx]: drag only. *)
Module Legacy.

Record State : Type := mkState {
  position : Point;
  isDragging : bool;
  startPos : Point;
  showTip : bool;
  showDebug : bool
}.

Definition setPosition (p : Point) (s : State) : State :=
  mkState p (isDragging s) (startPos s) (showTip s) (showDebug s).
Definition setIsDragging (b : bool) (s : State) : State :=
  mkState (position s) b (startPos s) (showTip s) (showDebug s).
Definition setStartPos (p : Point) (s : State) : State :=
  mkState (position s) (isDragging s) p (showTip s) (showDebug s).
Definition setShowDebug (b : bool) (s : State) : State :=
  mkState (position s) (isDragging s) (startPos s) (showTip s) b.

Definition initialState : State :=
  {| position := {| x := Fin 0; y := Fin 0 |};
     isDragging := false;
     startPos := {| x := Fin 0; y := Fin 0 |};
     showTip := true;
     showDebug := false |}.

Definition centerEffect (w : Window) (s : State) : State :=
  let s := setPosition (centered w) s in
  if debugParam w then setShowDebug true s else s.

Definition handleKeyDown (w : Window) (key : string) (s : State) : State :=
  let s := if key_is key "d" "D"
           then setShowDebug (negb (showDebug s)) s else s in
  let s := if key_is key "c" "C"
           then setPosition (centered w) s else s in
  s.

Definition handleMouseDown (e : Touch) (s : State) : State :=
  setStartPos {| x := (clientX e - x (position s))%js;
                 y := (clientY e - y (position s))%js |}
    (setIsDragging true s).

Definition handleMouseMove (e : Touch) (s : State) : State :=
  if negb (isDragging s) then s
  else setPosition {| x := (clientX e - x (startPos s))%js;
                      y := (clientY e - y (startPos s))%js |} s.

Definition handleMouseUp (s : State) : State := setIsDragging false s.

Definition handleTouchStart (touches : list Touch) (s : State) : State :=
  match touches with
  | [touch1] =>
      setStartPos {| x := (clientX touch1 - x (position s))%js;
                     y := (clientY touch1 - y (position s))%js |}
        (setIsDragging true s)
  | _ => s
  end.

Definition handleTouchMove (touches : list Touch) (s : State) : State :=
  if negb (isDragging s) || negb (List.length touches =? 1)%nat then s
  else
    match touches with
    | touch1 :: _ =>
        setPosition {| x := (clientX touch1 - x (startPos s))%js;
                       y := (clientY touch1 - y (startPos s))%js |} s
    | [] => s
    end.

Definition handleTouchEnd (s : State) : State := setIsDragging false s.

Inductive Event : Type :=
| Mount (w : Window)
| KeyDown (w : Window) (key : string)
| MouseDown (e : Touch)
| MouseMove (e : Touch)
| MouseUp
| TouchStart (touches : list Touch)
| TouchMove (touches : list Touch)
| TouchEnd.

Definition handle (s : State) (ev : Event) : State :=
  match ev with
  | Mount w => centerEffect w s
  | KeyDown w key => handleKeyDown w key s
  | MouseDown e => handleMouseDown e s
  | MouseMove e => handleMouseMove e s
  | MouseUp => handleMouseUp s
  | TouchStart touches => handleTouchStart touches s
  | TouchMove touches => handleTouchMove touches s
  | TouchEnd => handleTouchEnd s
  end.

Definition run (s : State) (evs : list Event) : State :=
  fold_left handle evs s.

End Legacy.

(** The cells that both variants have and that their handlers write:
    position, dragging flag, drag anchor and debug flag. *)
Definition sharedCells (s : State) : Point * bool * Point * bool :=
  (position s, isDragging s, startPos s, showDebug s).

Definition legacyCells (l : Legacy.State) : Point * bool * Point * bool :=
  (Legacy.position l, Legacy.isDragging l, Legacy.startPos l,
   Legacy.showDebug l).

(** The events the two variants both know and treat alike: no wheel, no
    zoom button, no move of two contacts, and a touch end only when no
    contact remains. *)
Definition legacyEvent (ev : Event) : option Legacy.Event :=
  match ev with
  | Mount (Some w) => Some (Legacy.Mount w)
  | KeyDown w key => Some (Legacy.KeyDown w key)
  | MouseDown e => Some (Legacy.MouseDown e)
  | MouseMove e => Some (Legacy.MouseMove e)
  | MouseUp => Some Legacy.MouseUp
  | TouchStart touches => Some (Legacy.TouchStart touches)
  | TouchMove _ touches =>
      if (List.length touches =? 2)%nat then None
      else Some (Legacy.TouchMove touches)
  | TouchEnd [] => Some Legacy.TouchEnd
  | _ => None
  end.

Fixpoint legacyEvents (evs : list Event) : option (list Legacy.Event) :=
  match evs with
  | [] => Some []
  | ev :: rest =>
      match legacyEvent ev, legacyEvents rest with
      | Some l, Some ls => Some (l :: ls)
      | _, _ => None
      end
  end.

(* ================================================================== *)
(** ** The price widget *)
(* ================================================================== *)

(** [a >= b] on numbers. *)
Definition js_geb (a b : number) : bool :=
  match a, b with
  | NaN, _ | _, NaN => false
  | Fin v, Fin u => if Rle_dec u v then true else false
  | PInf, _ | _, NInf => true
  | NInf, _ | _, PInf => false
  end.

(** Truthiness of a number: everything but zero and [NaN]. *)
Definition truthy (a : number) : bool :=
  match a with
  | Fin v => if Req_dec_T v 0 then false else true
  | NaN => false
  | PInf | NInf => true
  end.

(** [BitcoinPrice.tsx]: the state, the steps of [fetchBitcoinPrice] and
    what is shown. *)
Module BitcoinPrice.

Record State : Type := mkState {
  price : option number;
  change24h : option number;
  loading : bool;
  error : option string;
  lastUpdated : string
}.

Definition initialState : State := mkState None None true None "".

(** [setLoading(true)], before the request. *)
Definition fetchBegin (s : State) : State :=
  mkState (price s) (change24h s) true (error s) (lastUpdated s).

(** The request and the parsing went through: the four setters of the
    [try] block, then the [finally]. *)
Definition fetchOk (usd change : option number) (now : string) (s : State)
  : State :=
  mkState usd change false None now.

(** Something threw: the [catch] block, then the [finally]. *)
Definition fetchFailed (s : State) : State :=
  mkState (price s) (change24h s) false
    (Some "Failed to load Bitcoin price. Please try again later.")
    (lastUpdated s).

Inductive Arrow : Type := ArrowUp | ArrowDown | NoArrow.

(** What the middle of the card shows. *)
Inductive View : Type :=
| Skeleton
| ErrorText (msg : string)
| Quote (price : option number) (green : bool) (arrow : Arrow).

(** [change24h && change24h >= 0] *)
Definition badgeGreen (c : option number) : bool :=
  match c with
  | Some n => truthy n && js_geb n (Fin 0)
  | None => false
  end.

(** [change24h ? (change24h >= 0 ? up : down) : ''] *)
Definition badgeArrow (c : option number) : Arrow :=
  match c with
  | Some n =>
      if truthy n then if js_geb n (Fin 0) then ArrowUp else ArrowDown
      else NoArrow
  | None => NoArrow
  end.

Definition view (s : State) : View :=
  if loading s then Skeleton
  else
    match error s with
    | Some msg =>
        if (String.length msg =? 0)%nat
        then Quote (price s) (badgeGreen (change24h s))
               (badgeArrow (change24h s))
        else ErrorText msg
    | None =>
        Quote (price s) (badgeGreen (change24h s)) (badgeArrow (change24h s))
    end.

End BitcoinPrice.

(** How one call of [fetchBitcoinPrice] ends, and the call as a whole. *)
Inductive FetchOutcome : Type :=
| FetchOk (usd change : option number) (now : string)
| FetchFailed.

Definition fetchBitcoinPrice (o : FetchOutcome) (s : BitcoinPrice.State)
  : BitcoinPrice.State :=
  match o with
  | FetchOk usd change now =>
      BitcoinPrice.fetchOk usd change now (BitcoinPrice.fetchBegin s)
  | FetchFailed => BitcoinPrice.fetchFailed (BitcoinPrice.fetchBegin s)
  end.

(** What the card shows once a call has ended that way. *)
Definition viewOf (o : FetchOutcome) : BitcoinPrice.View :=
  match o with
  | FetchOk usd change now =>
      BitcoinPrice.Quote usd (BitcoinPrice.badgeGreen change)
        (BitcoinPrice.badgeArrow change)
  | FetchFailed =>
      BitcoinPrice.ErrorText
        "Failed to load Bitcoin price. Please try again later."
  end.

(* ================================================================== *)
(** ** Classes of events *)
(* ================================================================== *)

(** Events that leave the drag session as it is: everything but a press,
    a first contact, a release and the lift of the last contact. *)
Definition keepsDrag (ev : Event) : bool :=
  match ev with
  | MouseDown _ | MouseUp => false
  | TouchStart [_] => false
  | TouchEnd [] => false
  | _ => true
  end.

(** Mouse moves and touch moves. *)
Definition isMove (ev : Event) : bool :=
  match ev with
  | MouseMove _ | TouchMove _ _ => true
  | _ => false
  end.

(** Every event but the two that reset the zoom. *)
Definition notReset (ev : Event) : bool :=
  match ev with
  | KeyDown _ key => negb (key_is key "r" "R")
  | ClickResetZoom => false
  | _ => true
  end.

(** Every event but the arrival of a second contact. *)
Definition noSecondContact (ev : Event) : bool :=
  match ev with
  | TouchStart [_; _] => false
  | _ => true
  end.

(** A one-finger touch event read as the mouse event of the same
    position. *)
Definition asMouse (ev : Event) : Event :=
  match ev with
  | TouchStart [touch1] => MouseDown touch1
  | TouchMove _ [touch1] => MouseMove touch1
  | TouchEnd [] => MouseUp
  | _ => ev
  end.

(** All the numbers an event carries are finite. *)
Definition finiteWindow (w : Window) : bool :=
  is_finite (innerWidth w) && is_finite (innerHeight w).

Definition finiteRect (r : DOMRect) : bool :=
  is_finite (left r) && is_finite (top r).

Definition finiteData (ev : Event) : bool :=
  match ev with
  | Mount (Some w) | KeyDown w _ => finiteWindow w
  | Wheel rect e =>
      match rect with Some r => finiteRect r | None => true end
      && is_finite (deltaY e) && finiteTouch (wheelClient e)
  | MouseDown e | MouseMove e => finiteTouch e
  | TouchStart touches | TouchEnd touches => forallb finiteTouch touches
  | TouchMove r touches => finiteRect r && forallb finiteTouch touches
  | _ => true
  end.

Definition finitePoint (p : Point) : Prop :=
  exists a b : R, p = {| x := Fin a; y := Fin b |}.

(** Position and drag anchor are finite, the zoom is within bounds and
    the stored distance, if any, is a finite distance. *)
Definition allFinite (s : State) : Prop :=
  finitePoint (position s) /\ finitePoint (startPos s) /\ stateOK s.

(** A run of events with finite data in which no pinch move is
    degenerate in the state it meets. *)
Fixpoint finiteRun (s : State) (evs : list Event) : Prop :=
  match evs with
  | [] => True
  | ev :: rest =>
      finiteData ev = true /\ degeneratePinch s ev = false
      /\ finiteRun (handle s ev) rest
  end.

(** A wheel event with the modifier held. *)
Definition ctrlWheel (dy cx cy : R) : WheelEvent :=
  mkWheel true (Fin dy) (mkTouch (Fin cx) (Fin cy)).

(** The zoom a wheel delta asks for, before the clamp. *)
Definition wheelTarget (z0 dy : R) : R := z0 + dy * -0.01 * 0.1.

(* ================================================================== *)
(** ** Evaluating the number operations *)
(* ================================================================== *)

(** Decides the [Rmin]s and [Rmax]s of a goal on constants. *)
Ltac eval_clamp :=
  repeat match goal with
    | |- context [Rmin ?a ?b] =>
        first [ rewrite (Rmin_left a b) by lra
              | rewrite (Rmin_right a b) by lra ]
    | |- context [Rmax ?a ?b] =>
        first [ rewrite (Rmax_left a b) by lra
              | rewrite (Rmax_right a b) by lra ]
    end.

Lemma div_fin (a b : R) : b <> 0 -> (Fin a / Fin b)%js = Fin (a / b).
Proof.
  intros Hb. unfold div. destruct (Req_dec_T b 0) as [E | _].
  - contradiction.
  - reflexivity.
Qed.

Lemma div_pos_zero (a : R) : 0 < a -> (Fin a / Fin 0)%js = PInf.
Proof.
  intros Ha. unfold div, Rsign.
  destruct (Req_dec_T 0 0) as [_ | N]; [| lra].
  destruct (Rlt_dec a 0); [lra |].
  destruct (Rlt_dec 0 a); [reflexivity | lra].
Qed.

Lemma div_zero_zero : (Fin 0 / Fin 0)%js = NaN.
Proof.
  unfold div, Rsign.
  destruct (Req_dec_T 0 0) as [_ | N]; [| lra].
  destruct (Rlt_dec 0 0); [lra | reflexivity].
Qed.

Lemma mul_pos_PInf (a : R) : 0 < a -> (Fin a * PInf)%js = PInf.
Proof.
  intros Ha. unfold mul, sgn, Rsign.
  destruct (Rlt_dec a 0); [lra |].
  destruct (Rlt_dec 0 a); [reflexivity | lra].
Qed.

Lemma eqb_fin_neq (a b : R) : a <> b -> JS.eqb (Fin a) (Fin b) = false.
Proof.
  intros N. unfold JS.eqb. destruct (Req_dec_T a b); congruence.
Qed.

(** The clamp, on a finite value, on [+Infinity] and on [NaN]. *)
Lemma clampZoom_fin (z : R) :
  clampZoom (Fin z) = Fin (Rmax 0.2 (Rmin 2.0 z)).
Proof. reflexivity. Qed.

Lemma clampZoom_PInf : clampZoom PInf = ZOOM_max.
Proof.
  unfold clampZoom, ZOOM_min, ZOOM_max. cbn [JS.min JS.max].
  rewrite Rmax_right by lra. reflexivity.
Qed.

Lemma clampZoom_NaN : clampZoom NaN = NaN.
Proof. reflexivity. Qed.

Lemma Rclamp_bounds (z : R) : 0.2 <= Rmax 0.2 (Rmin 2.0 z) <= 2.0.
Proof.
  split.
  - apply Rmax_l.
  - apply Rmax_lub; [lra | apply Rmin_l].
Qed.

(* ================================================================== *)
(** ** Coordinate mapper *)
(* ================================================================== *)

(** C8.  For every integer pair [(gx, gy)], [gridToPixel gx gy] is
    [(centerX + gx * cellSize, centerY + gy * cellSize)], the inverse
    arithmetic recovers [(gx, gy)], [gridToPixel 1 (-1)] is [(5400, 4600)],
    and the placement of the additions is the same in every state of the
    viewport. *)
Theorem gridToPixel_roundtrip (gx gy : Z) :
  gridToPixel (Fin (IZR gx)) (Fin (IZR gy))
  = {| x := Fin (5000 + IZR gx * 400); y := Fin (5000 + IZR gy * 400) |}
  /\ pixelToGrid (gridToPixel (Fin (IZR gx)) (Fin (IZR gy)))
     = {| x := Fin (IZR gx); y := Fin (IZR gy) |}
  /\ gridToPixel (Fin 1) (Fin (-1)) = {| x := Fin 5400; y := Fin 4600 |}
  /\ forall s1 s2 : State,
       map fst (renderAdditions s1) = map fst (renderAdditions s2).
Proof.
  split; [reflexivity |]. split; [| split].
  - unfold pixelToGrid, gridToPixel, GRID_centerX, GRID_centerY, GRID_cellSize.
    cbn [x y add sub mul neg].
    rewrite !div_fin by lra. f_equal; f_equal; field.
  - unfold gridToPixel, GRID_centerX, GRID_centerY, GRID_cellSize.
    cbn [add mul]. f_equal; f_equal; lra.
  - intros s1 s2. unfold renderAdditions. rewrite !map_map. reflexivity.
Qed.

(* ================================================================== *)
(** ** Initialisation and the keyboard *)
(* ================================================================== *)

Lemma centered_fin (w h : R) (dbg : bool) :
  centered (mkWindow (Fin w) (Fin h) dbg)
  = {| x := Fin (w / 2 - 5000); y := Fin (h / 2 - 5000) |}.
Proof.
  unfold centered, GRID_centerX, GRID_centerY. cbn [innerWidth innerHeight].
  rewrite !div_fin by lra. reflexivity.
Qed.

(** C9.  Once the window size is known the mount effect sets the position
    to [(w/2 - centerX, h/2 - centerY)] and the zoom is the default 1.0;
    a 1024 x 768 window gives [(-4488, -4616)] at zoom 1.0. *)
Theorem initial_centering (w h : R) (dbg : bool) :
  let mounted (win : Window) := centerEffect (Some win) initialState in
  position (mounted (mkWindow (Fin w) (Fin h) dbg))
  = {| x := Fin (w / 2 - 5000); y := Fin (h / 2 - 5000) |}
  /\ zoomLevel (mounted (mkWindow (Fin w) (Fin h) dbg)) = Fin 1.0
  /\ position (mounted (mkWindow (Fin 1024) (Fin 768) dbg))
     = {| x := Fin (-4488); y := Fin (-4616) |}
  /\ zoomLevel (mounted (mkWindow (Fin 1024) (Fin 768) dbg)) = Fin 1.0.
Proof.
  assert (P : forall a b,
             position (centerEffect (Some (mkWindow (Fin a) (Fin b) dbg))
                         initialState)
             = {| x := Fin (a / 2 - 5000); y := Fin (b / 2 - 5000) |}).
  { intros a b. rewrite <- (centered_fin a b dbg). destruct dbg; reflexivity. }
  cbv zeta. split; [apply P |]. split; [destruct dbg; reflexivity |]. split.
  - rewrite P. f_equal; f_equal; lra.
  - destruct dbg; reflexivity.
Qed.

(** C10.  The re-center key sets the position to the centring formula for
    the current window size and leaves the zoom as it was. *)
Theorem recenter_keeps_zoom (w : Window) (key : string) (s : State) :
  key = "c" \/ key = "C" ->
  zoomLevel (handleKeyDown w key s) = zoomLevel s
  /\ position (handleKeyDown w key s) = centered w.
Proof.
  intros [-> | ->]; split; reflexivity.
Qed.

Lemma recenter_keeps_zoom_witness :
  zoomLevel (handleKeyDown (mkWindow (Fin 1024) (Fin 768) false) "c"
               (setZoomLevel (Fin 1.8) initialState))
  = Fin 1.8
  /\ position (handleKeyDown (mkWindow (Fin 1024) (Fin 768) false) "c"
                 (setZoomLevel (Fin 1.8) initialState))
     = centered (mkWindow (Fin 1024) (Fin 768) false).
Proof.
  apply (recenter_keeps_zoom (mkWindow (Fin 1024) (Fin 768) false) "c"
           (setZoomLevel (Fin 1.8) initialState)).
  left. reflexivity.
Defined.


(* ================================================================== *)
(** ** Mouse drag *)
(* ================================================================== *)

Section Drag.

Variables ax ay ox oy : R.

Lemma mouseDown_opens (s : State) :
  position s = {| x := Fin ox; y := Fin oy |} ->
  dragOpen ax ay ox oy (zoomLevel s)
    (handleMouseDown (mkTouch (Fin ax) (Fin ay)) s).
Proof.
  intros P. unfold dragOpen, handleMouseDown, anchorAt.
  cbn [isDragging startPos zoomLevel setStartPos setIsDragging position
       clientX clientY].
  rewrite P. repeat split.
Qed.

Lemma mouseMove_keeps (z : number) (e : Touch) (s : State) :
  dragOpen ax ay ox oy z s -> dragOpen ax ay ox oy z (handleMouseMove e s).
Proof.
  intros (D & A & Z). unfold handleMouseMove. rewrite D. cbn [negb].
  unfold dragOpen. cbn [isDragging startPos zoomLevel setPosition].
  auto.
Qed.

Lemma mouseMoves_keep (z : number) (moves : list Touch) (s : State) :
  dragOpen ax ay ox oy z s ->
  dragOpen ax ay ox oy z (run s (map MouseMove moves)).
Proof.
  revert s. induction moves as [| e moves IH]; intros s O.
  - exact O.
  - cbn [map]. unfold run. cbn [fold_left handle]. apply IH.
    apply mouseMove_keeps, O.
Qed.

Lemma mouseMove_tracks (z : number) (mx my : R) (s : State) :
  dragOpen ax ay ox oy z s ->
  position (handleMouseMove (mkTouch (Fin mx) (Fin my)) s)
  = {| x := Fin (ox + mx - ax); y := Fin (oy + my - ay) |}.
Proof.
  intros (D & A & _). unfold handleMouseMove. rewrite D. cbn [negb].
  unfold draggedTo. cbn [position setPosition clientX clientY].
  rewrite A. cbn [x y sub neg add]. f_equal; f_equal; lra.
Qed.

End Drag.

Lemma drag_run (ax ay ox oy mx my : R) (moves : list Touch) (s : State) :
  position s = {| x := Fin ox; y := Fin oy |} ->
  let s' := run s (MouseDown (mkTouch (Fin ax) (Fin ay))
                     :: map MouseMove moves
                     ++ [MouseMove (mkTouch (Fin mx) (Fin my))]) in
  position s' = {| x := Fin (ox + mx - ax); y := Fin (oy + my - ay) |}
  /\ zoomLevel s' = zoomLevel s.
Proof.
  intros P s'.
  assert (O : dragOpen ax ay ox oy (zoomLevel s)
                (run (handleMouseDown (mkTouch (Fin ax) (Fin ay)) s)
                   (map MouseMove moves))).
  { apply mouseMoves_keep, mouseDown_opens, P. }
  assert (E : s' = handleMouseMove (mkTouch (Fin mx) (Fin my))
                     (run (handleMouseDown (mkTouch (Fin ax) (Fin ay)) s)
                        (map MouseMove moves))).
  { subst s'. unfold run. rewrite app_comm_cons, fold_left_app. reflexivity. }
  rewrite E. split.
  - apply (mouseMove_tracks ax ay ox oy (zoomLevel s)), O.
  - apply (mouseMove_keeps ax ay ox oy), O.
Qed.

(** C6.  A drag opened at [(ax, ay)] when the position is [(ox, oy)]
    puts the position at [(ox + mx - ax, oy + my - ay)] on a move to
    [(mx, my)], whatever mouse moves were delivered in between, and the
    zoom stays what it was; from position [(0, 0)], a drag from
    [(100, 100)] to [(140, 160)] ends at [(40, 60)]. *)
Theorem drag_exact (ax ay ox oy mx my : R) (moves : list Touch) (s : State) :
  position s = {| x := Fin ox; y := Fin oy |} ->
  let drag (s0 : State) (a b c d : R) :=
    run s0 (MouseDown (mkTouch (Fin a) (Fin b))
              :: map MouseMove moves ++ [MouseMove (mkTouch (Fin c) (Fin d))])
  in
  position (drag s ax ay mx my)
  = {| x := Fin (ox + mx - ax); y := Fin (oy + my - ay) |}
  /\ zoomLevel (drag s ax ay mx my) = zoomLevel s
  /\ position (drag initialState 100 100 140 160)
     = {| x := Fin 40; y := Fin 60 |}.
Proof.
  intros P drag. subst drag. cbv beta.
  destruct (drag_run ax ay ox oy mx my moves s P) as [Q Z].
  split; [exact Q |]. split; [exact Z |].
  destruct (drag_run 100 100 0 0 140 160 moves initialState eq_refl)
    as [Q0 _].
  cbv zeta in Q0. rewrite Q0. f_equal; f_equal; lra.
Qed.

Lemma drag_exact_witness :
  position initialState = {| x := Fin 0; y := Fin 0 |}
  /\ position (run initialState
                 [ MouseDown (mkTouch (Fin 100) (Fin 100));
                   MouseMove (mkTouch (Fin 120) (Fin 130));
                   MouseMove (mkTouch (Fin 140) (Fin 160)) ])
     = {| x := Fin (0 + 140 - 100); y := Fin (0 + 160 - 100) |}.
Proof.
  split; [reflexivity |].
  exact (proj1 (drag_exact 100 100 0 0 140 160
                  [mkTouch (Fin 120) (Fin 130)] initialState eq_refl)).
Defined.

(* ================================================================== *)
(** ** Wheel zoom *)
(* ================================================================== *)

(** The focal-point formula on finite values. *)
Lemma zoomAround_fin (fx fy k ox oy : R) :
  zoomAround (Fin fx) (Fin fy) (Fin k) {| x := Fin ox; y := Fin oy |}
  = {| x := Fin (fx - (fx - ox) * k); y := Fin (fy - (fy - oy) * k) |}.
Proof.
  unfold zoomAround. cbn [x y sub neg add mul].
  f_equal; f_equal; lra.
Qed.

(** What [handleWheel] does with finite data when the modifier is held. *)
Lemma handleWheel_fin (s : State) (z0 ox oy dy cx cy l t : R) :
  zoomLevel s = Fin z0 ->
  position s = {| x := Fin ox; y := Fin oy |} ->
  z0 <> 0 ->
  let z1 := Rmax 0.2 (Rmin 2.0 (z0 + dy * -0.01 * 0.1)) in
  z1 <> z0 ->
  handleWheel (Some (mkRect (Fin l) (Fin t)))
    (mkWheel true (Fin dy) (mkTouch (Fin cx) (Fin cy))) s
  = setPosition
      {| x := Fin ((cx - l) - ((cx - l) - ox) * (z1 / z0));
         y := Fin ((cy - t) - ((cy - t) - oy) * (z1 / z0)) |}
      (setZoomLevel (Fin z1) s).
Proof.
  intros Z P H0 z1 Hne. unfold handleWheel.
  cbn [ctrlKey negb deltaY wheelClient clientX clientY left top].
  rewrite Z, P. unfold ZOOM_step. cbn [mul add].
  rewrite clampZoom_fin. fold z1.
  rewrite (eqb_fin_neq z1 z0 Hne). cbn [negb].
  rewrite (div_fin z1 z0 H0). cbn [sub neg add].
  rewrite zoomAround_fin. reflexivity.
Qed.

(** C2.  The surface point under the pointer during a wheel zoom, on the
    canvas as mounted in a 1024 x 768 window: position [(-4488, -4616)],
    zoom 1.  The container's corner is at client [(vl, vt)]; the
    rectangle read by the handler is that of the canvas element itself,
    which the transform has moved by the position (at zoom 1 the scale
    leaves it in place).  With the modifier held, the pointer at
    [(300, 200)] from the container's corner and a delta of -100, the zoom
    becomes 1.1 and the position [(-5415.6, -5559.2)]: the surface point
    under the pointer, [(pointer - position) / zoom], was at [4788] along
    x and is now at [5196], and it has moved along y as well. *)
Theorem wheel_moves_point_under_pointer (vl vt : R) :
  let s := centerEffect (Some (mkWindow (Fin 1024) (Fin 768) false))
             initialState in
  let rect := mkRect (Fin (vl + -4488)) (Fin (vt + -4616)) in
  let s' := handleWheel (Some rect)
              (mkWheel true (Fin (-100))
                 (mkTouch (Fin (vl + 300)) (Fin (vt + 200)))) s in
  position s = {| x := Fin (-4488); y := Fin (-4616) |}
  /\ zoomLevel s = Fin 1.0
  /\ zoomLevel s' = Fin 1.1
  /\ position s' = {| x := Fin (-5415.6); y := Fin (-5559.2) |}
  /\ ((Fin 300 - x (position s)) / zoomLevel s)%js = Fin 4788
  /\ ((Fin 300 - x (position s')) / zoomLevel s')%js = Fin 5196
  /\ ((Fin 300 - x (position s')) / zoomLevel s')%js
     <> ((Fin 300 - x (position s)) / zoomLevel s)%js
  /\ ((Fin 200 - y (position s')) / zoomLevel s')%js
     <> ((Fin 200 - y (position s)) / zoomLevel s)%js.
Proof.
  cbv zeta.
  set (s := centerEffect (Some (mkWindow (Fin 1024) (Fin 768) false))
              initialState).
  assert (P : position s = {| x := Fin (-4488); y := Fin (-4616) |}).
  { change (centered (mkWindow (Fin 1024) (Fin 768) false)
            = {| x := Fin (-4488); y := Fin (-4616) |}).
    rewrite centered_fin. f_equal; f_equal; lra. }
  assert (Z : zoomLevel s = Fin 1.0) by reflexivity.
  assert (E : Rmax 0.2 (Rmin 2.0 (1.0 + -100 * -0.01 * 0.1)) = 1.1)
    by (eval_clamp; lra).
  rewrite (handleWheel_fin s 1.0 (-4488) (-4616) (-100) (vl + 300) (vt + 200)
             (vl + -4488) (vt + -4616) Z P);
    [| lra | rewrite E; lra].
  rewrite E. cbn [zoomLevel position setPosition setZoomLevel].
  replace (vl + 300 - (vl + -4488)
           - (vl + 300 - (vl + -4488) - -4488) * (1.1 / 1.0))
    with (-5415.6) by lra.
  replace (vt + 200 - (vt + -4616)
           - (vt + 200 - (vt + -4616) - -4616) * (1.1 / 1.0))
    with (-5559.2) by lra.
  rewrite P, Z. cbn [x y sub neg add].
  rewrite !div_fin by lra.
  repeat split; try (f_equal; lra); intros H; injection H; lra.
Qed.

(** The wheel on the initial state with the pointer at [(300, 200)] and a
    delta that brings the zoom to 1.1: the position becomes
    [(-30, -20)]. *)
Lemma wheel_scenario :
  let s' := handleWheel (Some rect0)
              (mkWheel true (Fin (-100)) (touchAt 300 200)) initialState in
  zoomLevel s' = Fin 1.1
  /\ position s' = {| x := Fin (-30); y := Fin (-20) |}.
Proof.
  cbv zeta. unfold rect0, touchAt.
  assert (E : Rmax 0.2 (Rmin 2.0 (1.0 + -100 * -0.01 * 0.1)) = 1.1)
    by (eval_clamp; lra).
  rewrite (handleWheel_fin initialState 1.0 0 0 (-100) 300 200 0 0
             eq_refl eq_refl); [| lra | rewrite E; lra].
  rewrite E. cbn [zoomLevel position setPosition setZoomLevel].
  split; [reflexivity |]. f_equal; f_equal; lra.
Qed.

(* ================================================================== *)
(** ** Pinch zoom *)
(* ================================================================== *)

Lemma euclid_eq (a b c : R) : 0 <= c -> a * a + b * b = c * c -> euclid a b = c.
Proof.
  intros Hc E. unfold euclid. rewrite E. apply sqrt_square, Hc.
Qed.

Lemma euclid_nonneg (a b : R) : 0 <= euclid a b.
Proof. apply sqrt_pos. Qed.

Lemma euclid_zero (a b : R) : euclid a b = 0 <-> a = 0 /\ b = 0.
Proof.
  unfold euclid. split.
  - intros H. apply sqrt_eq_0 in H; [| nra]. split; nra.
  - intros [-> ->]. replace (0 * 0 + 0 * 0) with 0 by lra. apply sqrt_0.
Qed.

Lemma touchDistance_fin (x1 y1 x2 y2 : R) :
  touchDistance (mkTouch (Fin x1) (Fin y1)) (mkTouch (Fin x2) (Fin y2))
  = Fin (euclid (x1 - x2) (y1 - y2)).
Proof. reflexivity. Qed.

Section PinchMove.

Variables (s : State) (z0 ox oy d x1 y1 x2 y2 l t : R).

Hypothesis Hzoom : zoomLevel s = Fin z0.
Hypothesis Hpos : position s = {| x := Fin ox; y := Fin oy |}.
Hypothesis Hlast : lastDistance s = Some (Fin d).

Local Abbreviation cur := (euclid (x1 - x2) (y1 - y2)).
Local Abbreviation mx := ((x1 + x2) / 2 - l).
Local Abbreviation my := ((y1 + y2) / 2 - t).
Local Abbreviation moved :=
  (handleTouchMove (mkRect (Fin l) (Fin t))
     [mkTouch (Fin x1) (Fin y1); mkTouch (Fin x2) (Fin y2)] s).

(** The pinch branch with the divisions still to be carried out. *)
Lemma pinch_unfold :
  moved
  = let z := clampZoom (Fin z0 * (Fin cur / Fin d))%js in
    setLastDistance (Some (Fin cur))
      (setPosition
         (zoomAround (Fin mx) (Fin my) (z / Fin z0)%js
            {| x := Fin ox; y := Fin oy |})
         (setZoomLevel z s)).
Proof.
  unfold handleTouchMove. rewrite Hlast, Hzoom, Hpos.
  rewrite touchDistance_fin.
  cbn [clientX clientY left top add]. rewrite !div_fin by lra.
  reflexivity.
Qed.

(** A positive stored distance: everything stays finite. *)
Lemma pinch_fin :
  z0 <> 0 -> d <> 0 ->
  let z1 := Rmax 0.2 (Rmin 2.0 (z0 * (cur / d))) in
  moved
  = setLastDistance (Some (Fin cur))
      (setPosition
         {| x := Fin (mx - (mx - ox) * (z1 / z0));
            y := Fin (my - (my - oy) * (z1 / z0)) |}
         (setZoomLevel (Fin z1) s)).
Proof.
  intros H0 Hd z1. rewrite pinch_unfold. cbv zeta.
  rewrite (div_fin cur d Hd). cbn [mul]. rewrite clampZoom_fin. fold z1.
  rewrite (div_fin z1 z0 H0), zoomAround_fin. reflexivity.
Qed.

(** A zero stored distance and contacts now apart: the ratio is
    [+Infinity] and the clamp gives [ZOOM.max]. *)
Lemma pinch_zero_anchor :
  d = 0 -> 0 < cur -> 0 < z0 ->
  moved
  = setLastDistance (Some (Fin cur))
      (setPosition
         {| x := Fin (mx - (mx - ox) * (2.0 / z0));
            y := Fin (my - (my - oy) * (2.0 / z0)) |}
         (setZoomLevel ZOOM_max s)).
Proof.
  intros Hd Hc H0. rewrite pinch_unfold. cbv zeta.
  rewrite Hd, (div_pos_zero cur Hc), (mul_pos_PInf z0 H0), clampZoom_PInf.
  unfold ZOOM_max. rewrite div_fin by lra. rewrite zoomAround_fin.
  reflexivity.
Qed.

(** A zero stored distance and contacts still on one point: the ratio is
    [0 / 0], and [NaN] goes through the clamp. *)
Lemma pinch_zero_zero :
  d = 0 -> cur = 0 ->
  zoomLevel moved = NaN
  /\ position moved = {| x := NaN; y := NaN |}.
Proof.
  intros Hd Hc. rewrite pinch_unfold. cbv zeta. rewrite Hd, Hc.
  rewrite div_zero_zero. split; reflexivity.
Qed.

End PinchMove.

(** Zoom and stored distance after the pinch branch, whatever the numbers
    are. *)
Lemma zoomLevel_pinch (rect : DOMRect) (t1 t2 : Touch) (d : number) (s : State) :
  lastDistance s = Some d ->
  zoomLevel (handleTouchMove rect [t1; t2] s)
  = clampZoom (zoomLevel s * (touchDistance t1 t2 / d))%js.
Proof. intros L. unfold handleTouchMove. rewrite L. reflexivity. Qed.

Lemma lastDistance_pinch (rect : DOMRect) (t1 t2 : Touch) (d : number) (s : State) :
  lastDistance s = Some d ->
  lastDistance (handleTouchMove rect [t1; t2] s) = Some (touchDistance t1 t2).
Proof. intros L. unfold handleTouchMove. rewrite L. reflexivity. Qed.

(* ================================================================== *)
(** ** The zoom bound *)
(* ================================================================== *)

Lemma zoomInBounds_clamp (z : R) : zoomInBounds (clampZoom (Fin z)).
Proof.
  exists (Rmax 0.2 (Rmin 2.0 z)). split; [reflexivity | apply Rclamp_bounds].
Qed.

Lemma zoomInBounds_default : zoomInBounds ZOOM_default.
Proof. exists 1.0. split; [reflexivity | lra]. Qed.

Lemma zoomInBounds_max : zoomInBounds ZOOM_max.
Proof. exists 2.0. split; [reflexivity | lra]. Qed.

Lemma zoomInBounds_stepIn (z : number) :
  zoomInBounds z -> zoomInBounds (JS.min (z + ZOOM_step)%js ZOOM_max).
Proof.
  intros (r & -> & Hl & Hu). exists (Rmin (r + 0.1) 2.0).
  split; [reflexivity |]. split.
  - apply Rmin_glb; lra.
  - apply Rmin_r.
Qed.

Lemma zoomInBounds_stepOut (z : number) :
  zoomInBounds z -> zoomInBounds (JS.max (z - ZOOM_step)%js ZOOM_min).
Proof.
  intros (r & -> & Hl & Hu). exists (Rmax (r - 0.1) 0.2).
  split; [reflexivity |]. split.
  - apply Rmax_r.
  - apply Rmax_lub; lra.
Qed.

Lemma zoomInBounds_NaN : ~ zoomInBounds NaN.
Proof. intros (r & E & _). discriminate E. Qed.

(** The same-point pinch, step by step. *)
Lemma samePointPinch_zoom (a b c d : R) :
  zoomLevel (run initialState (samePointPinch a b c d)) = NaN.
Proof.
  unfold samePointPinch, run, touchAt, rect0. cbn [fold_left handle].
  refine (proj1 (pinch_zero_zero
                   (handleTouchStart
                      [mkTouch (Fin a) (Fin b); mkTouch (Fin a) (Fin b)]
                      initialState)
                   1.0 0 0 (euclid (a - a) (b - b)) c d c d 0 0
                   eq_refl eq_refl eq_refl _ _));
    apply euclid_zero; split; lra.
Qed.

(** C1.  The zoom bound after every update, on the runs in which two
    contacts land on one point and then move together, to [(120, 110)]
    say: the zoom starts within [[ZOOM.min, ZOOM.max]], the events carry
    finite data, and the zoom is [NaN] after the pinch move, which is
    within no bounds. *)
Theorem zoom_bound_lost_on_same_point_pinch (a b c d : R) :
  zoomInBounds (zoomLevel initialState)
  /\ forallb finiteEvent (samePointPinch a b c d) = true
  /\ zoomLevel (run initialState (samePointPinch a b c d)) = NaN
  /\ ~ zoomInBounds (zoomLevel (run initialState (samePointPinch a b c d)))
  /\ ~ zoomInBounds
        (zoomLevel (run initialState (samePointPinch 100 100 120 110))).
Proof.
  split; [apply zoomInBounds_default |]. split; [reflexivity |].
  split; [apply samePointPinch_zoom |].
  rewrite !samePointPinch_zoom. split; apply zoomInBounds_NaN.
Qed.

(** *** The bound on regular runs

    Apart from the same-point pinch, every handler keeps the zoom within
    bounds. *)

Lemma stateOK_frame (s s' : State) :
  zoomLevel s' = zoomLevel s -> lastDistance s' = lastDistance s ->
  stateOK s -> stateOK s'.
Proof. unfold stateOK. intros -> ->. auto. Qed.

Lemma stateOK_setZoomLevel (z : number) (s : State) :
  zoomInBounds z -> stateOK s -> stateOK (setZoomLevel z s).
Proof. intros B [_ L]. split; assumption. Qed.

Lemma stateOK_setPosition (p : Point) (s : State) :
  stateOK s -> stateOK (setPosition p s).
Proof. apply stateOK_frame; reflexivity. Qed.

Lemma stateOK_setShowDebug (b : bool) (s : State) :
  stateOK s -> stateOK (setShowDebug b s).
Proof. apply stateOK_frame; reflexivity. Qed.

Lemma stateOK_zoomIn (s : State) : stateOK s -> stateOK (zoomIn s).
Proof.
  intros OK. apply stateOK_setZoomLevel; [| exact OK].
  apply zoomInBounds_stepIn, OK.
Qed.

Lemma stateOK_zoomOut (s : State) : stateOK s -> stateOK (zoomOut s).
Proof.
  intros OK. apply stateOK_setZoomLevel; [| exact OK].
  apply zoomInBounds_stepOut, OK.
Qed.

Lemma stateOK_resetZoom (s : State) : stateOK s -> stateOK (resetZoom s).
Proof.
  intros OK. apply stateOK_setZoomLevel; [apply zoomInBounds_default | exact OK].
Qed.

Lemma stateOK_handleKeyDown (w : Window) (key : string) (s : State) :
  stateOK s -> stateOK (handleKeyDown w key s).
Proof.
  intros OK. unfold handleKeyDown. cbv zeta.
  destruct (key_is key "-" "_"); [apply stateOK_zoomOut |];
    (destruct (key_is key "+" "="); [apply stateOK_zoomIn |]);
    (destruct (key_is key "r" "R"); [apply stateOK_resetZoom |]);
    (destruct (key_is key "c" "C"); [apply stateOK_setPosition |]);
    (destruct (key_is key "d" "D"); [apply stateOK_setShowDebug |]);
    exact OK.
Qed.

Lemma stateOK_handleWheel (rect : option DOMRect) (e : WheelEvent) (s : State) :
  is_finite (deltaY e) = true -> stateOK s -> stateOK (handleWheel rect e s).
Proof.
  intros F OK. unfold handleWheel.
  destruct (ctrlKey e); [| exact OK]. cbn [negb].
  destruct (negb _); [| exact OK].
  destruct rect as [rect |]; [| exact OK].
  apply stateOK_setPosition, stateOK_setZoomLevel; [| exact OK].
  destruct OK as [(r & -> & _) _].
  destruct (deltaY e) as [dy | | |]; try discriminate F.
  apply zoomInBounds_clamp.
Qed.

Lemma stateOK_handleTouchStart (touches : list Touch) (s : State) :
  forallb finiteTouch touches = true ->
  stateOK s -> stateOK (handleTouchStart touches s).
Proof.
  intros F OK. unfold handleTouchStart.
  destruct touches as [| [a1 b1] [| [a2 b2] [| t3 rest]]]; try exact OK.
  split; [apply OK |]. cbn [lastDistance setLastDistance].
  cbn [forallb finiteTouch clientX clientY] in F.
  destruct a1, b1, a2, b2; try discriminate F.
  eexists. split; [apply touchDistance_fin | apply euclid_nonneg].
Qed.

Lemma stateOK_handleTouchMove (rect : DOMRect) (touches : list Touch) (s : State) :
  forallb finiteTouch touches = true ->
  degeneratePinch s (TouchMove rect touches) = false ->
  stateOK s -> stateOK (handleTouchMove rect touches s).
Proof.
  intros F D OK.
  destruct touches as [| t1 [| t2 [| t3 rest]]].
  - exact OK.
  - unfold handleTouchMove.
    destruct (lastDistance s), (isDragging s);
      first [exact OK | apply stateOK_setPosition, OK].
  - destruct (lastDistance s) as [d |] eqn:L.
    + pose proof OK as [(z0 & Z & Hl & Hu) Hd]. rewrite L in Hd.
      destruct Hd as (r & -> & Hr).
      destruct t1 as [a1 b1], t2 as [a2 b2].
      cbn [forallb finiteTouch clientX clientY] in F.
      destruct a1 as [x1| | |], b1 as [y1| | |], a2 as [x2| | |],
               b2 as [y2| | |]; try discriminate F.
      unfold degeneratePinch in D. rewrite L, touchDistance_fin in D.
      split.
      * rewrite (zoomLevel_pinch _ _ _ _ _ L), Z, touchDistance_fin.
        destruct (Req_dec_T r 0) as [E | N].
        -- subst r.
           destruct (Req_dec_T (euclid (x1 - x2) (y1 - y2)) 0) as [E | N].
           ++ rewrite E in D. unfold JS.eqb in D.
              destruct (Req_dec_T 0 0); [discriminate D | lra].
           ++ pose proof (euclid_nonneg (x1 - x2) (y1 - y2)).
              rewrite div_pos_zero by lra. rewrite mul_pos_PInf by lra.
              rewrite clampZoom_PInf. apply zoomInBounds_max.
        -- rewrite div_fin by exact N. apply zoomInBounds_clamp.
      * rewrite (lastDistance_pinch _ _ _ _ _ L), touchDistance_fin.
        eexists. split; [reflexivity | apply euclid_nonneg].
    + unfold handleTouchMove. rewrite L. exact OK.
  - unfold handleTouchMove. destruct (lastDistance s); exact OK.
Qed.

Lemma stateOK_handleTouchEnd (touches : list Touch) (s : State) :
  stateOK s -> stateOK (handleTouchEnd touches s).
Proof.
  intros OK. unfold handleTouchEnd. cbv zeta.
  assert (OK' : stateOK (if (List.length touches <? 2)%nat
                         then setLastDistance None s else s)).
  { destruct (List.length touches <? 2)%nat; [| exact OK].
    split; [apply OK | exact I]. }
  destruct (List.length touches =? 0)%nat; [| exact OK'].
  revert OK'. apply stateOK_frame; reflexivity.
Qed.

(** One event of a regular run keeps the zoom within bounds. *)
Lemma stateOK_handle (s : State) (ev : Event) :
  finiteEvent ev = true -> degeneratePinch s ev = false ->
  stateOK s -> stateOK (handle s ev).
Proof.
  intros F D OK. destruct ev; cbn [handle].
  - unfold centerEffect. destruct w as [w |]; [| exact OK].
    revert OK. apply stateOK_frame; destruct (debugParam w); reflexivity.
  - apply stateOK_handleKeyDown, OK.
  - apply stateOK_handleWheel; assumption.
  - revert OK. apply stateOK_frame; reflexivity.
  - unfold handleMouseMove. destruct (negb _); [exact OK |].
    apply stateOK_setPosition, OK.
  - revert OK. apply stateOK_frame; reflexivity.
  - apply stateOK_handleTouchStart; assumption.
  - apply stateOK_handleTouchMove; assumption.
  - apply stateOK_handleTouchEnd, OK.
  - apply stateOK_zoomIn, OK.
  - apply stateOK_zoomOut, OK.
  - apply stateOK_resetZoom, OK.
Qed.

(** X25.  On a regular run the zoom is within bounds after every
    event. *)
Theorem zoom_bound_on_regular_runs (evs : list Event) (s : State) (n : nat) :
  stateOK s -> regularRun s evs ->
  zoomInBounds (zoomLevel (run s (firstn n evs))).
Proof.
  revert s n. induction evs as [| ev evs IH]; intros s n OK Reg.
  - rewrite firstn_nil. apply OK.
  - destruct n as [| n]; [apply OK |].
    destruct Reg as (F & D & Reg). cbn [firstn]. unfold run. cbn [fold_left].
    apply IH; [| exact Reg]. apply stateOK_handle; assumption.
Qed.

(** The bound at work: [pinchOutAndBack] is a regular run, so the zoom is
    within bounds after each of its events. *)
Lemma pinchOutAndBack_regular : regularRun initialState pinchOutAndBack.
Proof.
  unfold pinchOutAndBack, touchAt, rect0. cbn [regularRun handle].
  split; [reflexivity |]. split; [reflexivity |].
  split; [reflexivity |]. split.
  { unfold degeneratePinch, handleTouchStart.
    cbn [lastDistance setLastDistance]. rewrite !touchDistance_fin.
    rewrite (euclid_eq (0 - 100) (0 - 0) 100) by lra.
    rewrite eqb_fin_neq by lra. reflexivity. }
  split; [reflexivity |]. split; [| exact I].
  unfold degeneratePinch.
  rewrite (lastDistance_pinch _ _ _ (Fin (euclid (0 - 100) (0 - 0))) _)
    by reflexivity.
  rewrite !touchDistance_fin.
  rewrite (euclid_eq (0 - 300) (0 - 0) 300) by lra.
  rewrite eqb_fin_neq by lra. reflexivity.
Qed.

(* ================================================================== *)
(** ** Pinch: incremental, not anchored *)
(* ================================================================== *)


(** The first move of a pinch, from distance 100 to distance 150 at zoom
    1: the ratio is 1.5 and so is the zoom. *)
Lemma pinch_first_move_scenario :
  zoomLevel (run initialState
               [ TouchStart [touchAt 0 0; touchAt 100 0];
                 TouchMove rect0 [touchAt 0 0; touchAt 150 0] ])
  = Fin 1.5.
Proof.
  unfold run, touchAt, rect0. cbn [fold_left handle].
  rewrite (zoomLevel_pinch _ _ _ (Fin (euclid (0 - 100) (0 - 0))) _)
    by reflexivity.
  rewrite touchDistance_fin.
  rewrite (euclid_eq (0 - 100) (0 - 0) 100) by lra.
  rewrite (euclid_eq (0 - 150) (0 - 0) 150) by lra.
  cbn [zoomLevel handleTouchStart setLastDistance initialState].
  unfold ZOOM_default. rewrite (div_fin 150 100) by lra. cbn [mul].
  rewrite clampZoom_fin. f_equal. eval_clamp. lra.
Qed.





(* ================================================================== *)
(** ** Pinch with a zero stored distance *)
(* ================================================================== *)





(* ================================================================== *)
(** ** Drag and pinch sessions *)
(* ================================================================== *)

(** Counterexample to C5: one contact opens a drag session, and when the
    second contact arrives the pinch distance is stored while the
    dragging flag stays set. *)
Lemma both_sessions_open_after_second_contact :
  dragSessionOpen (run initialState secondContactArrives) = true
  /\ pinchSessionOpen (run initialState secondContactArrives) = true.
Proof. split; reflexivity. Qed.

Lemma length_two (touches : list Touch) :
  (List.length touches =? 2)%nat = true ->
  exists t1 t2, touches = [t1; t2].
Proof.
  destruct touches as [| t1 [| t2 [| t3 rest]]]; try discriminate.
  intros _. exists t1, t2. reflexivity.
Qed.

Lemma length_one (touches : list Touch) :
  (List.length touches =? 1)%nat = true -> exists t1, touches = [t1].
Proof.
  destruct touches as [| t1 [| t2 rest]]; try discriminate.
  intros _. exists t1. reflexivity.
Qed.

Lemma handleTouchMove_one (rect : DOMRect) (t1 : Touch) (s : State) :
  handleTouchMove rect [t1] s
  = if isDragging s then setPosition (draggedTo t1 s) s else s.
Proof. unfold handleTouchMove. destruct (lastDistance s); reflexivity. Qed.

Lemma handleTouchMove_idle (rect : DOMRect) (touches : list Touch) (s : State) :
  pinchApplies touches s = false -> dragApplies touches s = false ->
  handleTouchMove rect touches s = s.
Proof.
  unfold pinchApplies, dragApplies, pinchSessionOpen, handleTouchMove.
  destruct touches as [| t1 [| t2 [| t3 rest]]];
    destruct (lastDistance s), (isDragging s);
    cbn [List.length Nat.eqb andb]; intros; congruence.
Qed.

(** C5, amended.  The dragging flag and the stored pinch distance are
    separate cells: a second contact stores the pinch distance and leaves
    the flag and the anchor as they are.  What is exclusive is their use:
    a touch move with two contacts and a stored distance leaves exactly
    the state of the pinch update, computed from zoom, position and stored
    distance alone (the drag flag and anchor are neither read nor
    written); one with a single contact and the flag set leaves exactly
    the state of the drag update (zoom and stored distance untouched);
    never both, and otherwise the state is unchanged; when the last
    contact lifts both are closed. *)
Theorem touch_move_single_writer
    (rect : DOMRect) (touches : list Touch) (s : State) :
  let s' := handleTouchMove rect touches s in
  (pinchApplies touches s && dragApplies touches s = false)
  /\ (pinchApplies touches s = true ->
      exists t1 t2 d,
        touches = [t1; t2] /\ lastDistance s = Some d
        /\ let z1 := clampZoom (zoomLevel s * (touchDistance t1 t2 / d))%js in
           let midpointX :=
             ((clientX t1 + clientX t2) / Fin 2 - left rect)%js in
           let midpointY :=
             ((clientY t1 + clientY t2) / Fin 2 - top rect)%js in
           s' = mkState
                  (zoomAround midpointX midpointY (z1 / zoomLevel s)%js
                     (position s))
                  z1 (isDragging s) (startPos s)
                  (Some (touchDistance t1 t2))
                  (showTip s) (showDebug s) (showZoomControls s)
           /\ forall (dragging : bool) (anchor : Point),
                let other := setStartPos anchor (setIsDragging dragging s) in
                position (handleTouchMove rect touches other) = position s'
                /\ zoomLevel (handleTouchMove rect touches other)
                   = zoomLevel s'
                /\ lastDistance (handleTouchMove rect touches other)
                   = lastDistance s')
  /\ (dragApplies touches s = true ->
      exists t1,
        touches = [t1]
        /\ s' = mkState (draggedTo t1 s) (zoomLevel s) (isDragging s)
                  (startPos s) (lastDistance s)
                  (showTip s) (showDebug s) (showZoomControls s))
  /\ (pinchApplies touches s = false -> dragApplies touches s = false ->
      s' = s)
  /\ (forall t1 t2,
        isDragging (handleTouchStart [t1; t2] s) = isDragging s
        /\ startPos (handleTouchStart [t1; t2] s) = startPos s
        /\ pinchSessionOpen (handleTouchStart [t1; t2] s) = true)
  /\ dragSessionOpen (handleTouchEnd [] s) = false
  /\ pinchSessionOpen (handleTouchEnd [] s) = false.
Proof.
  cbv zeta. split; [| split; [| split; [| split; [| split]]]].
  - unfold pinchApplies, dragApplies.
    destruct touches as [| t1 [| t2 [| t3 rest]]];
      cbn [List.length Nat.eqb andb]; try reflexivity.
    apply andb_false_r.
  - intros A. unfold pinchApplies in A. apply andb_prop in A as [Len Open].
    apply length_two in Len as (t1 & t2 & ->).
    unfold pinchSessionOpen in Open.
    destruct (lastDistance s) as [d |] eqn:L; [| discriminate Open].
    exists t1, t2, d. split; [reflexivity |]. split; [reflexivity |].
    unfold handleTouchMove.
    cbn [lastDistance position zoomLevel setStartPos setIsDragging].
    rewrite L. split; [reflexivity |]. intros dragging anchor.
    repeat split.
  - intros A. unfold dragApplies in A. apply andb_prop in A as [Len Drag].
    apply length_one in Len as (t1 & ->).
    rewrite handleTouchMove_one. exists t1. split; [reflexivity |].
    transitivity (setPosition (draggedTo t1 s) s);
      [rewrite Drag; reflexivity | reflexivity].
  - apply handleTouchMove_idle.
  - intros t1 t2. repeat split.
  - split; reflexivity.
Qed.

(* ================================================================== *)
(** ** Lifting one finger after a pinch *)
(* ================================================================== *)

(** [handleTouchEnd] never writes the drag anchor. *)
Lemma handleTouchEnd_startPos (touches : list Touch) (s : State) :
  startPos (handleTouchEnd touches s) = startPos s
  /\ position (handleTouchEnd touches s) = position s.
Proof.
  unfold handleTouchEnd. cbv zeta.
  destruct (List.length touches <? 2)%nat, (List.length touches =? 0)%nat;
    split; reflexivity.
Qed.

(** The state when the first finger has lifted after the pinch. *)
Lemma pinchThenLift_state :
  let s := run initialState pinchThenLift in
  lastDistance s = None
  /\ isDragging s = true
  /\ zoomLevel s = Fin 2.0
  /\ position s = {| x := Fin (-200); y := Fin (-100) |}
  /\ startPos s = {| x := Fin 100; y := Fin 100 |}.
Proof.
  cbv zeta. unfold pinchThenLift, run, touchAt, rect0.
  cbn [fold_left handle].
  rewrite (pinch_fin
             (handleTouchStart
                [mkTouch (Fin 100) (Fin 100); mkTouch (Fin 200) (Fin 100)]
                (handleTouchStart [mkTouch (Fin 100) (Fin 100)] initialState))
             1.0 0 0 (euclid (100 - 200) (100 - 100))
             100 100 300 100 0 0 eq_refl eq_refl eq_refl);
    [| lra | rewrite (euclid_eq (100 - 200) (100 - 100) 100); lra ].
  rewrite (euclid_eq (100 - 200) (100 - 100) 100) by lra.
  rewrite (euclid_eq (100 - 300) (100 - 100) 200) by lra.
  replace (Rmax 0.2 (Rmin 2.0 (1.0 * (200 / 100)))) with 2.0
    by (eval_clamp; lra).
  unfold handleTouchEnd, handleTouchStart, anchorAt.
  cbn [List.length Nat.ltb Nat.leb Nat.eqb lastDistance isDragging zoomLevel
       position startPos setLastDistance setPosition setZoomLevel
       setStartPos setIsDragging initialState clientX clientY x y
       sub neg add].
  repeat split; try reflexivity; f_equal; f_equal; lra.
Qed.

(** C7.  On [pinchThenLift] the pinch session is discarded when the
    count drops from two to one, and the drag goes on (the flag is still
    set), but no fresh anchor is taken: [startPos] is still the one of the
    first contact, not the anchor [(500, 200)] of the remaining contact at
    the current position, and a move event of the remaining contact that
    has not moved throws the position from [(-200, -100)] to [(200, 0)].
    Wherever the remaining contact moves, the position is [(400, 100)]
    away from where a fresh anchor would put it; [handleTouchEnd] never
    writes [startPos]. *)
Theorem lift_after_pinch_jumps :
  let s := run initialState pinchThenLift in
  let remaining := touchAt 300 100 in
  pinchSessionOpen s = false
  /\ dragSessionOpen s = true
  /\ position s = {| x := Fin (-200); y := Fin (-100) |}
  /\ startPos s = {| x := Fin 100; y := Fin 100 |}
  /\ startPos (spec_resumeDrag remaining s)
     = {| x := Fin 500; y := Fin 200 |}
  /\ position (handle (spec_resumeDrag remaining s)
                 (TouchMove rect0 [remaining]))
     = position s
  /\ position (handle s (TouchMove rect0 [remaining]))
     = {| x := Fin 200; y := Fin 0 |}
  /\ position (handle s (TouchMove rect0 [remaining])) <> position s
  /\ (forall mx my : R,
        position (handle s (TouchMove rect0 [touchAt mx my]))
        = {| x := Fin (mx - 100); y := Fin (my - 100) |}
        /\ position (handle (spec_resumeDrag remaining s)
                       (TouchMove rect0 [touchAt mx my]))
           = {| x := Fin (-200 + (mx - 300)); y := Fin (-100 + (my - 100)) |})
  /\ forall (touches : list Touch) (s0 : State),
       startPos (handleTouchEnd touches s0) = startPos s0.
Proof.
  cbv zeta. destruct pinchThenLift_state as (L & D & Z & P & A).
  cbv zeta in L, D, Z, P, A.
  set (s := run initialState pinchThenLift) in *.
  assert (M : forall mx my : R,
             position (handle s (TouchMove rect0 [touchAt mx my]))
             = {| x := Fin (mx - 100); y := Fin (my - 100) |}).
  { intros mx my. cbn [handle]. unfold touchAt.
    rewrite handleTouchMove_one, D.
    unfold draggedTo. cbn [position setPosition clientX clientY].
    rewrite A. reflexivity. }
  assert (F : forall mx my : R,
             position (handle (spec_resumeDrag (touchAt 300 100) s)
                         (TouchMove rect0 [touchAt mx my]))
             = {| x := Fin (-200 + (mx - 300));
                  y := Fin (-100 + (my - 100)) |}).
  { intros mx my. cbn [handle]. unfold touchAt. rewrite handleTouchMove_one.
    unfold spec_resumeDrag. cbn [isDragging setStartPos setIsDragging].
    unfold draggedTo, anchorAt.
    cbn [position startPos setPosition setStartPos setIsDragging
         clientX clientY x y].
    rewrite P. cbn [x y sub neg add]. f_equal; f_equal; lra. }
  split; [unfold pinchSessionOpen; rewrite L; reflexivity |].
  split; [exact D |]. split; [exact P |]. split; [exact A |].
  split; [| split; [| split; [| split; [| split]]]].
  - unfold spec_resumeDrag, anchorAt, touchAt.
    cbn [startPos setStartPos clientX clientY]. rewrite P.
    cbn [x y sub neg add]. f_equal; f_equal; lra.
  - rewrite F, P. f_equal; f_equal; lra.
  - rewrite M. f_equal; f_equal; lra.
  - rewrite M, P. intros E. injection E as E _. lra.
  - intros mx my. split; [apply M | apply F].
  - intros touches s0. apply handleTouchEnd_startPos.
Qed.

(* ================================================================== *)
(** ** More on the wheel *)
(* ================================================================== *)

(** Two ways in which [handleWheel] returns the state it got. *)
Lemma handleWheel_no_rect (e : WheelEvent) (s : State) :
  handleWheel None e s = s.
Proof.
  unfold handleWheel. destruct (ctrlKey e); [| reflexivity]. cbn [negb].
  destruct (negb _); reflexivity.
Qed.

Lemma handleWheel_same_zoom
    (rect : option DOMRect) (e : WheelEvent) (s : State) (z0 dy : R) :
  zoomLevel s = Fin z0 -> deltaY e = Fin dy ->
  Rmax 0.2 (Rmin 2.0 (wheelTarget z0 dy)) = z0 ->
  handleWheel rect e s = s.
Proof.
  intros Z D E. unfold handleWheel.
  destruct (ctrlKey e); [| reflexivity]. cbn [negb].
  rewrite Z, D. unfold ZOOM_step. cbn [mul add]. rewrite clampZoom_fin.
  change (z0 + dy * -0.01 * 0.1) with (wheelTarget z0 dy). rewrite E.
  unfold JS.eqb. destruct (Req_dec_T z0 z0); [| congruence].
  reflexivity.
Qed.

(** X1.  A wheel event changes nothing when the modifier is not held,
    when the canvas ref is empty, or when the clamped zoom is the current
    one: a zero delta, scrolling in at [ZOOM.max], scrolling out at
    [ZOOM.min]. *)
Theorem wheel_ignored (rect : option DOMRect) (e : WheelEvent) (s : State) :
  ctrlKey e = false
  \/ rect = None
  \/ (exists z0 dy : R,
        zoomLevel s = Fin z0 /\ 0.2 <= z0 <= 2.0 /\ deltaY e = Fin dy
        /\ (dy = 0 \/ (z0 = 2.0 /\ dy <= 0) \/ (z0 = 0.2 /\ 0 <= dy))) ->
  handleWheel rect e s = s.
Proof.
  intros [C | [-> | (z0 & dy & Z & B & D & Edge)]].
  - unfold handleWheel. rewrite C. reflexivity.
  - apply handleWheel_no_rect.
  - apply (handleWheel_same_zoom rect e s z0 dy Z D). unfold wheelTarget.
    destruct Edge as [-> | [[-> Hd] | [-> Hd]]].
    + replace (z0 + 0 * -0.01 * 0.1) with z0 by lra.
      rewrite Rmin_right by lra. apply Rmax_right. lra.
    + rewrite Rmin_left by lra. apply Rmax_right. lra.
    + rewrite Rmin_right by lra. apply Rmax_left. lra.
Qed.

Lemma wheel_ignored_witness :
  handleWheel (Some rect0) (ctrlWheel (-100) 300 200)
    (setZoomLevel (Fin 2.0) initialState)
  = setZoomLevel (Fin 2.0) initialState.
Proof.
  apply wheel_ignored. right. right. exists 2.0, (-100).
  split; [reflexivity |]. split; [lra |]. split; [reflexivity |].
  right. left. split; [reflexivity | lra].
Defined.

(** X2.  The direction of a wheel step: whatever the rectangle, from a
    zoom within bounds a non-positive delta never lowers the zoom, a
    non-negative delta never raises it, and the zoom stays within
    bounds. *)
Theorem wheel_step (rect : option DOMRect) (e : WheelEvent) (s : State)
    (z0 dy : R) :
  zoomLevel s = Fin z0 -> 0.2 <= z0 <= 2.0 -> deltaY e = Fin dy ->
  exists z1 : R,
    zoomLevel (handleWheel rect e s) = Fin z1
    /\ 0.2 <= z1 <= 2.0
    /\ (dy <= 0 -> z0 <= z1)
    /\ (0 <= dy -> z1 <= z0).
Proof.
  intros Z B D.
  assert (Same : exists z1 : R,
             zoomLevel s = Fin z1 /\ 0.2 <= z1 <= 2.0 /\ (dy <= 0 -> z0 <= z1)
             /\ (0 <= dy -> z1 <= z0)).
  { exists z0. split; [exact Z |]. split; [exact B |]. split; lra. }
  unfold handleWheel. destruct (ctrlKey e); cbn [negb]; [| exact Same].
  destruct (negb _); [| exact Same].
  destruct rect as [rect |]; [| exact Same].
  cbn [zoomLevel setPosition setZoomLevel].
  rewrite Z, D. unfold ZOOM_step. cbn [mul add]. rewrite clampZoom_fin.
  eexists. split; [reflexivity |]. split; [apply Rclamp_bounds |].
  split; intros H.
  - apply Rle_trans with (Rmin 2.0 (z0 + dy * -0.01 * 0.1)); [| apply Rmax_r].
    apply Rmin_glb; lra.
  - apply Rmax_lub; [lra |].
    eapply Rle_trans; [apply Rmin_r | lra].
Qed.

Lemma wheel_step_witness :
  exists z1 : R,
    zoomLevel (handleWheel (Some rect0) (ctrlWheel (-100) 300 200)
                 initialState) = Fin z1
    /\ 0.2 <= z1 <= 2.0
    /\ (-100 <= 0 -> 1.0 <= z1)
    /\ (0 <= -100 -> z1 <= 1.0).
Proof.
  apply (wheel_step (Some rect0) (ctrlWheel (-100) 300 200) initialState
           1.0 (-100) eq_refl); [lra | reflexivity].
Defined.

(* ================================================================== *)
(** ** More on the keyboard and the zoom buttons *)
(* ================================================================== *)

Lemma key_is_false (key a b : string) :
  key <> a -> key <> b -> key_is key a b = false.
Proof.
  intros Ha Hb. unfold key_is.
  apply String.eqb_neq in Ha. apply String.eqb_neq in Hb.
  rewrite Ha, Hb. reflexivity.
Qed.

(** X4.  A key that is none of the ten shortcuts changes nothing. *)
Theorem unknown_key_ignored (w : Window) (key : string) (s : State) :
  ~ In key ["d"; "D"; "c"; "C"; "r"; "R"; "+"; "="; "-"; "_"] ->
  handleKeyDown w key s = s.
Proof.
  intros N. unfold handleKeyDown.
  rewrite !key_is_false; try reflexivity;
    intros ->; apply N; cbn [In]; tauto.
Qed.

Lemma unknown_key_ignored_witness :
  handleKeyDown (mkWindow (Fin 1024) (Fin 768) false) "x" initialState
  = initialState.
Proof.
  apply unknown_key_ignored. cbn [In].
  intros [H | [H | [H | [H | [H | [H | [H | [H | [H | [H | H]]]]]]]]]];
    try discriminate H; exact H.
Defined.

(** X5.  Toggling the debug view twice restores the state, re-centring
    and resetting the zoom are idempotent, and a shortcut acts the same in
    either case of its letter. *)
Theorem shortcuts_algebra (w : Window) (s : State) :
  handleKeyDown w "d" (handleKeyDown w "d" s) = s
  /\ handleKeyDown w "c" (handleKeyDown w "c" s) = handleKeyDown w "c" s
  /\ handleKeyDown w "r" (handleKeyDown w "r" s) = handleKeyDown w "r" s
  /\ handleKeyDown w "D" s = handleKeyDown w "d" s
  /\ handleKeyDown w "C" s = handleKeyDown w "c" s
  /\ handleKeyDown w "R" s = handleKeyDown w "r" s.
Proof.
  destruct s as [p z dr sp ld tip dbg zc].
  repeat split; try reflexivity.
  unfold handleKeyDown, setShowDebug, key_is.
  cbn [String.eqb Ascii.eqb Bool.eqb orb
       position zoomLevel isDragging startPos lastDistance showTip
       showDebug showZoomControls].
  rewrite negb_involutive. reflexivity.
Qed.

Lemma zoomLevel_iter_zoomIn (n : nat) (s : State) (z : R) :
  zoomLevel s = Fin z -> z <= 2.0 ->
  zoomLevel (Nat.iter n zoomIn s) = Fin (Rmin (z + INR n * 0.1) 2.0).
Proof.
  intros Z B. induction n as [| n IH].
  - change (Nat.iter 0 zoomIn s) with s. cbn [INR]. rewrite Z. f_equal.
    rewrite Rmin_left; lra.
  - change (Nat.iter (S n) zoomIn s) with (zoomIn (Nat.iter n zoomIn s)).
    unfold zoomIn at 1. cbn [zoomLevel setZoomLevel].
    rewrite IH. unfold ZOOM_step, ZOOM_max. cbn [add JS.min]. f_equal.
    rewrite S_INR. pose proof (pos_INR n).
    unfold Rmin.
    destruct (Rle_dec (z + INR n * 0.1) 2.0);
      destruct (Rle_dec (z + (INR n + 1) * 0.1) 2.0);
      match goal with
      | |- context [Rle_dec ?a ?b] => destruct (Rle_dec a b)
      end; lra.
Qed.

Lemma zoomLevel_iter_zoomOut (n : nat) (s : State) (z : R) :
  zoomLevel s = Fin z -> 0.2 <= z ->
  zoomLevel (Nat.iter n zoomOut s) = Fin (Rmax (z - INR n * 0.1) 0.2).
Proof.
  intros Z B. induction n as [| n IH].
  - change (Nat.iter 0 zoomOut s) with s. cbn [INR]. rewrite Z. f_equal.
    rewrite Rmax_left; lra.
  - change (Nat.iter (S n) zoomOut s) with (zoomOut (Nat.iter n zoomOut s)).
    unfold zoomOut at 1. cbn [zoomLevel setZoomLevel].
    rewrite IH. unfold ZOOM_step, ZOOM_min. cbn [sub neg add JS.max]. f_equal.
    rewrite S_INR. pose proof (pos_INR n).
    unfold Rmax.
    destruct (Rle_dec (z - INR n * 0.1) 0.2);
      destruct (Rle_dec (z - (INR n + 1) * 0.1) 0.2);
      match goal with
      | |- context [Rle_dec ?a ?b] => destruct (Rle_dec a b)
      end; lra.
Qed.

Lemma position_iter_zoom (n : nat) (s : State) :
  position (Nat.iter n zoomIn s) = position s
  /\ position (Nat.iter n zoomOut s) = position s.
Proof.
  induction n as [| n [IHi IHo]]; [split; reflexivity |].
  change (Nat.iter (S n) zoomIn s) with (zoomIn (Nat.iter n zoomIn s)).
  change (Nat.iter (S n) zoomOut s) with (zoomOut (Nat.iter n zoomOut s)).
  split; [rewrite <- IHi | rewrite <- IHo]; reflexivity.
Qed.

(** X6.  Zoom steps from the keyboard and from the buttons are the same
    operations.  From a zoom [z] within bounds, any number of steps in
    leaves a zoom between [z] and [ZOOM.max], any number of steps out one
    between [ZOOM.min] and [z], and the position is never touched;
    nineteen steps or more end on the bound itself; a step in at
    [ZOOM.max] and a step out at [ZOOM.min] change nothing. *)
Theorem zoom_steps (w : Window) (n : nat) (s : State) (z : R) :
  zoomLevel s = Fin z -> 0.2 <= z <= 2.0 ->
  (exists zi : R,
     zoomLevel (Nat.iter n zoomIn s) = Fin zi /\ z <= zi <= 2.0)
  /\ (exists zo : R,
        zoomLevel (Nat.iter n zoomOut s) = Fin zo /\ 0.2 <= zo <= z)
  /\ position (Nat.iter n zoomIn s) = position s
  /\ position (Nat.iter n zoomOut s) = position s
  /\ ((19 <= n)%nat ->
      zoomLevel (Nat.iter n zoomIn s) = ZOOM_max
      /\ zoomLevel (Nat.iter n zoomOut s) = ZOOM_min)
  /\ (z = 2.0 -> zoomIn s = s)
  /\ (z = 0.2 -> zoomOut s = s)
  /\ handleKeyDown w "+" s = zoomIn s /\ handleKeyDown w "=" s = zoomIn s
  /\ handleKeyDown w "-" s = zoomOut s /\ handleKeyDown w "_" s = zoomOut s
  /\ handleKeyDown w "r" s = resetZoom s.
Proof.
  intros Z B. pose proof (pos_INR n) as Hn.
  assert (I : zoomLevel (Nat.iter n zoomIn s) = Fin (Rmin (z + INR n * 0.1) 2.0))
    by (apply zoomLevel_iter_zoomIn; [exact Z | lra]).
  assert (O : zoomLevel (Nat.iter n zoomOut s)
              = Fin (Rmax (z - INR n * 0.1) 0.2))
    by (apply zoomLevel_iter_zoomOut; [exact Z | lra]).
  split; [| split; [| split; [| split; [| split; [| split; [| split]]]]]].
  - eexists. split; [exact I |]. split.
    + apply Rmin_glb; lra.
    + apply Rmin_r.
  - eexists. split; [exact O |]. split.
    + apply Rmax_r.
    + apply Rmax_lub; lra.
  - apply position_iter_zoom.
  - apply position_iter_zoom.
  - intros Hge. apply le_INR in Hge.
    replace (INR 19) with 19 in Hge by (cbn [INR]; lra).
    rewrite I, O. unfold ZOOM_max, ZOOM_min.
    split; f_equal; [apply Rmin_right | apply Rmax_right]; lra.
  - intros ->. destruct s as [p z' dr sp ld tip dbg zc].
    cbn [zoomLevel] in Z. subst z'.
    unfold zoomIn, setZoomLevel, ZOOM_step, ZOOM_max.
    cbn [position zoomLevel isDragging startPos lastDistance showTip
         showDebug showZoomControls add JS.min].
    f_equal. f_equal. apply Rmin_right. lra.
  - intros ->. destruct s as [p z' dr sp ld tip dbg zc].
    cbn [zoomLevel] in Z. subst z'.
    unfold zoomOut, setZoomLevel, ZOOM_step, ZOOM_min.
    cbn [position zoomLevel isDragging startPos lastDistance showTip
         showDebug showZoomControls sub neg add JS.max].
    f_equal. f_equal. apply Rmax_right. lra.
  - repeat split.
Qed.

Lemma zoom_steps_witness :
  zoomLevel (Nat.iter 19 zoomIn (setZoomLevel (Fin 0.2) initialState))
  = ZOOM_max.
Proof.
  refine (proj1 (proj1 (proj2 (proj2 (proj2 (proj2
            (zoom_steps (mkWindow (Fin 1024) (Fin 768) false) 19
               (setZoomLevel (Fin 0.2) initialState) 0.2 eq_refl _)))))
            (le_n 19))).
  lra.
Defined.

(* ================================================================== *)
(** ** A zoom that is not a number *)
(* ================================================================== *)

Lemma add_NaN_l (b : number) : (NaN + b)%js = NaN.
Proof. destruct b; reflexivity. Qed.

Lemma mul_NaN_l (b : number) : (NaN * b)%js = NaN.
Proof. destruct b; reflexivity. Qed.

Lemma nan_zoom_step (s : State) (ev : Event) :
  notReset ev = true -> zoomLevel s = NaN -> zoomLevel (handle s ev) = NaN.
Proof.
  intros NR Z. destruct ev; cbn [handle notReset] in *.
  - unfold centerEffect. destruct w as [w |]; [| exact Z].
    destruct (debugParam w); exact Z.
  - apply negb_true_iff in NR. unfold handleKeyDown. rewrite NR.
    destruct (key_is key "d" "D"), (key_is key "c" "C"),
      (key_is key "+" "="), (key_is key "-" "_");
      cbn [zoomLevel setZoomLevel setPosition setShowDebug];
      rewrite ?Z; reflexivity.
  - unfold handleWheel. destruct (ctrlKey e); [| exact Z]. cbn [negb].
    rewrite Z, add_NaN_l, clampZoom_NaN. cbn [JS.eqb negb].
    destruct rect; [reflexivity | exact Z].
  - exact Z.
  - unfold handleMouseMove. destruct (negb _); exact Z.
  - exact Z.
  - unfold handleTouchStart.
    destruct touches as [| t1 [| t2 [| t3 rest]]]; exact Z.
  - unfold handleTouchMove.
    destruct touches as [| t1 [| t2 [| t3 rest]]];
      destruct (lastDistance s); try destruct (isDragging s); try exact Z;
      cbn [zoomLevel setLastDistance setPosition setZoomLevel];
      rewrite Z, mul_NaN_l; reflexivity.
  - unfold handleTouchEnd.
    destruct (_ <? _)%nat, (_ =? _)%nat; exact Z.
  - unfold zoomIn. cbn [zoomLevel setZoomLevel]. rewrite Z. reflexivity.
  - unfold zoomOut. cbn [zoomLevel setZoomLevel]. rewrite Z. reflexivity.
  - discriminate NR.
Qed.

(** X7.  Once the zoom is [NaN] it stays [NaN] through every event but a
    reset: wheel, pinch, step keys and step buttons all keep it; the reset
    key and the reset button bring the default back. *)
Theorem nan_zoom_sticks (w : Window) (evs : list Event) (s : State) :
  zoomLevel s = NaN -> forallb notReset evs = true ->
  zoomLevel (run s evs) = NaN
  /\ zoomLevel (handle (run s evs) ClickResetZoom) = ZOOM_default
  /\ zoomLevel (handle (run s evs) (KeyDown w "r")) = ZOOM_default.
Proof.
  intros Z NR. split; [| split; reflexivity].
  revert s Z NR. induction evs as [| ev evs IH]; intros s Z NR.
  - exact Z.
  - cbn [forallb] in NR. apply andb_prop in NR as [NR1 NR2].
    unfold run. cbn [fold_left]. apply IH; [| exact NR2].
    apply nan_zoom_step; assumption.
Qed.

Lemma nan_zoom_sticks_witness :
  zoomLevel (run (run initialState (samePointPinch 100 100 120 110))
               [ ClickZoomIn;
                 Wheel (Some rect0) (ctrlWheel (-100) 300 200);
                 KeyDown (mkWindow (Fin 1024) (Fin 768) false) "-" ])
  = NaN.
Proof.
  refine (proj1 (nan_zoom_sticks (mkWindow (Fin 1024) (Fin 768) false)
                   _ _ (samePointPinch_zoom 100 100 120 110) _)).
  reflexivity.
Defined.

(* ================================================================== *)
(** ** Presses, releases and moves *)
(* ================================================================== *)

(** X8.  Pressing and releasing never move the canvas: a mouse press or
    release and a touch start or end, with any number of contacts, leave
    position and zoom as they are. *)
Theorem press_release_keep_view (s : State) (e : Touch) (touches : list Touch) :
  let same (s' : State) :=
    position s' = position s /\ zoomLevel s' = zoomLevel s in
  same (handleMouseDown e s) /\ same (handleMouseUp s)
  /\ same (handleTouchStart touches s) /\ same (handleTouchEnd touches s).
Proof.
  cbv zeta. split; [split; reflexivity |]. split; [split; reflexivity |].
  split.
  - unfold handleTouchStart.
    destruct touches as [| t1 [| t2 [| t3 rest]]]; split; reflexivity.
  - unfold handleTouchEnd.
    destruct (_ <? _)%nat, (_ =? _)%nat; split; reflexivity.
Qed.

Lemma keepsDrag_step (ev : Event) (s : State) :
  keepsDrag ev = true ->
  isDragging (handle s ev) = isDragging s
  /\ startPos (handle s ev) = startPos s.
Proof.
  intros K. destruct ev; cbn [handle keepsDrag] in *; try discriminate K.
  - unfold centerEffect. destruct w as [w |]; [| split; reflexivity].
    destruct (debugParam w); split; reflexivity.
  - unfold handleKeyDown.
    destruct (key_is key "d" "D"), (key_is key "c" "C"),
      (key_is key "r" "R"), (key_is key "+" "="), (key_is key "-" "_");
      split; reflexivity.
  - unfold handleWheel. destruct (ctrlKey e); [| split; reflexivity].
    cbn [negb]. destruct (negb _); [| split; reflexivity].
    destruct rect; split; reflexivity.
  - unfold handleMouseMove. destruct (negb _); split; reflexivity.
  - unfold handleTouchStart.
    destruct touches as [| t1 [| t2 [| t3 rest]]];
      try discriminate K; split; reflexivity.
  - unfold handleTouchMove.
    destruct touches as [| t1 [| t2 [| t3 rest]]];
      destruct (lastDistance s); try (split; reflexivity);
      destruct (isDragging s) eqn:D; split;
      cbn [isDragging startPos setPosition]; try reflexivity; exact D.
  - unfold handleTouchEnd.
    destruct touches as [| t1 [| t2 rest]]; try discriminate K;
      split; reflexivity.
  - split; reflexivity.
  - split; reflexivity.
  - split; reflexivity.
Qed.

Lemma keepsDrag_run (evs : list Event) (s : State) :
  forallb keepsDrag evs = true ->
  isDragging (run s evs) = isDragging s
  /\ startPos (run s evs) = startPos s.
Proof.
  revert s. induction evs as [| ev evs IH]; intros s K.
  - split; reflexivity.
  - cbn [forallb] in K. apply andb_prop in K as [K1 K2].
    unfold run. cbn [fold_left].
    destruct (IH (handle s ev) K2) as [D A].
    destruct (keepsDrag_step ev s K1) as [D1 A1].
    unfold run in D, A. rewrite D, A, D1, A1. split; reflexivity.
Qed.

(** X9.  While the button is held the drag anchor wins: whatever comes
    between the press at [(ax, ay)] on position [(ox, oy)] and a mouse
    move to [(mx, my)], keys, wheel zoom, buttons, touch moves, a second
    contact, as long as it is no new press and no release, the move puts
    the position at [(ox + mx - ax, oy + my - ay)]. *)
Theorem drag_anchor_wins
    (ax ay ox oy mx my : R) (between : list Event) (s : State) :
  position s = {| x := Fin ox; y := Fin oy |} ->
  forallb keepsDrag between = true ->
  position (run s (MouseDown (mkTouch (Fin ax) (Fin ay))
                     :: between ++ [MouseMove (mkTouch (Fin mx) (Fin my))]))
  = {| x := Fin (ox + mx - ax); y := Fin (oy + my - ay) |}.
Proof.
  intros P K. unfold run. rewrite app_comm_cons, fold_left_app.
  cbn [fold_left handle].
  fold (run (handleMouseDown (mkTouch (Fin ax) (Fin ay)) s) between).
  destruct (keepsDrag_run between
              (handleMouseDown (mkTouch (Fin ax) (Fin ay)) s) K) as [D A].
  apply (mouseMove_tracks ax ay ox oy
           (zoomLevel (run (handleMouseDown (mkTouch (Fin ax) (Fin ay)) s)
                         between))).
  unfold dragOpen. rewrite D, A.
  destruct (mouseDown_opens ax ay ox oy s P) as (D0 & A0 & _).
  repeat split; assumption.
Qed.

Lemma drag_anchor_wins_witness :
  position (run initialState
              [ MouseDown (mkTouch (Fin 100) (Fin 100));
                Wheel (Some rect0) (ctrlWheel (-100) 300 200);
                KeyDown (mkWindow (Fin 1024) (Fin 768) false) "c";
                MouseMove (mkTouch (Fin 140) (Fin 160)) ])
  = {| x := Fin (0 + 140 - 100); y := Fin (0 + 160 - 100) |}.
Proof.
  apply (drag_anchor_wins 100 100 0 0 140 160
           [ Wheel (Some rect0) (ctrlWheel (-100) 300 200);
             KeyDown (mkWindow (Fin 1024) (Fin 768) false) "c" ]
           initialState eq_refl eq_refl).
Defined.

Lemma idle_move (ev : Event) (s : State) :
  isMove ev = true -> isDragging s = false -> lastDistance s = None ->
  handle s ev = s.
Proof.
  intros M D L. destruct ev; try discriminate M; cbn [handle].
  - unfold handleMouseMove. rewrite D. reflexivity.
  - apply handleTouchMove_idle.
    + unfold pinchApplies, pinchSessionOpen. rewrite L. apply andb_false_r.
    + unfold dragApplies. rewrite D. apply andb_false_r.
Qed.

(** X10.  Released is released: after a mouse release with no pinch
    distance stored, or after the last contact has lifted, mouse moves and
    touch moves with any number of contacts change nothing. *)
Theorem moves_after_release (moves : list Event) (s : State) :
  forallb isMove moves = true ->
  run (handleTouchEnd [] s) moves = handleTouchEnd [] s
  /\ (lastDistance s = None ->
      run (handleMouseUp s) moves = handleMouseUp s).
Proof.
  intros M.
  assert (Idle : forall s0, isDragging s0 = false -> lastDistance s0 = None ->
                            run s0 moves = s0).
  { induction moves as [| ev moves IH]; intros s0 D L; [reflexivity |].
    cbn [forallb] in M. apply andb_prop in M as [M1 M2].
    unfold run. cbn [fold_left]. rewrite (idle_move ev s0 M1 D L).
    apply (IH M2); assumption. }
  split; [apply Idle; reflexivity |].
  intros L. apply Idle; [reflexivity | exact L].
Qed.

Lemma moves_after_release_witness :
  run (handleTouchEnd [] (run initialState pinchThenLift))
    [ TouchMove rect0 [touchAt 300 100];
      TouchMove rect0 [touchAt 0 0; touchAt 50 50];
      MouseMove (touchAt 10 10) ]
  = handleTouchEnd [] (run initialState pinchThenLift).
Proof.
  exact (proj1 (moves_after_release
                  [ TouchMove rect0 [touchAt 300 100];
                    TouchMove rect0 [touchAt 0 0; touchAt 50 50];
                    MouseMove (touchAt 10 10) ]
                  (run initialState pinchThenLift) eq_refl)).
Defined.

(* ================================================================== *)
(** ** One finger and the mouse; many fingers *)
(* ================================================================== *)

Lemma handleTouchEnd_none (s : State) :
  lastDistance s = None -> handleTouchEnd [] s = handleMouseUp s.
Proof.
  intros L. destruct s as [p z dr sp ld tip dbg zc]. cbn [lastDistance] in L.
  subst ld. reflexivity.
Qed.

Lemma asMouse_step (ev : Event) (s : State) :
  noSecondContact ev = true -> lastDistance s = None ->
  handle s (asMouse ev) = handle s ev
  /\ lastDistance (handle s ev) = None.
Proof.
  intros N L. destruct ev; cbn [asMouse handle noSecondContact] in *.
  - unfold centerEffect. destruct w as [w |]; [| split; [reflexivity | exact L]].
    destruct (debugParam w); split; try reflexivity; exact L.
  - split; [reflexivity |]. unfold handleKeyDown.
    destruct (key_is key "d" "D"), (key_is key "c" "C"),
      (key_is key "r" "R"), (key_is key "+" "="), (key_is key "-" "_");
      exact L.
  - split; [reflexivity |]. unfold handleWheel.
    destruct (ctrlKey e); [| exact L]. cbn [negb].
    destruct (negb _); [| exact L]. destruct rect; exact L.
  - split; [reflexivity | exact L].
  - split; [reflexivity |]. unfold handleMouseMove.
    destruct (negb _); exact L.
  - split; [reflexivity | exact L].
  - destruct touches as [| t1 [| t2 [| t3 rest]]]; try discriminate N;
      split; try reflexivity; exact L.
  - destruct touches as [| t1 [| t2 [| t3 rest]]]; cbn [handle];
      unfold handleTouchMove; rewrite ?L; try (split; reflexivity).
    unfold handleMouseMove. destruct (isDragging s);
      split; try reflexivity; exact L.
  - destruct touches as [| t1 [| t2 rest]]; cbn [handle].
    + split; [symmetry; apply handleTouchEnd_none, L | reflexivity].
    + split; reflexivity.
    + split; [reflexivity | exact L].
  - split; [reflexivity | exact L].
  - split; [reflexivity | exact L].
  - split; [reflexivity | exact L].
Qed.

(** X11.  One finger is the mouse: in a run with no pinch distance stored
    at its start and no arrival of a second contact, reading every
    one-contact touch start, move and last lift as the mouse press, move
    and release of the same position gives the same final state. *)
Theorem one_finger_is_mouse (evs : list Event) (s : State) :
  lastDistance s = None -> forallb noSecondContact evs = true ->
  run s (map asMouse evs) = run s evs.
Proof.
  revert s. induction evs as [| ev evs IH]; intros s L N; [reflexivity |].
  cbn [forallb] in N. apply andb_prop in N as [N1 N2].
  destruct (asMouse_step ev s N1 L) as [E L'].
  unfold run. cbn [map fold_left]. rewrite E. apply IH; assumption.
Qed.

Lemma one_finger_is_mouse_witness :
  run initialState
    [ MouseDown (touchAt 100 100); MouseMove (touchAt 140 160); MouseUp ]
  = run initialState
      [ TouchStart [touchAt 100 100];
        TouchMove rect0 [touchAt 140 160];
        TouchEnd [] ].
Proof.
  exact (one_finger_is_mouse
           [ TouchStart [touchAt 100 100];
             TouchMove rect0 [touchAt 140 160];
             TouchEnd [] ]
           initialState eq_refl eq_refl).
Defined.

(** X12.  Three or more contacts are ignored: a touch start or a touch
    move that reports at least three contacts changes nothing, and so
    does a touch end that leaves at least two. *)
Theorem many_contacts_ignored
    (rect : DOMRect) (touches : list Touch) (s : State) :
  (3 <= List.length touches)%nat ->
  handleTouchStart touches s = s
  /\ handleTouchMove rect touches s = s
  /\ handleTouchEnd touches s = s
  /\ (forall t1 t2, handleTouchEnd [t1; t2] s = s).
Proof.
  intros Len.
  destruct touches as [| t1 [| t2 [| t3 rest]]]; cbn [List.length] in Len;
    try lia.
  split; [reflexivity |]. split.
  - unfold handleTouchMove. destruct (lastDistance s); reflexivity.
  - split; reflexivity.
Qed.

Lemma many_contacts_ignored_witness :
  handleTouchMove rect0 [touchAt 0 0; touchAt 10 0; touchAt 20 20]
    (run initialState secondContactArrives)
  = run initialState secondContactArrives.
Proof.
  refine (proj1 (proj2 (many_contacts_ignored rect0
                          [touchAt 0 0; touchAt 10 0; touchAt 20 20]
                          (run initialState secondContactArrives) _))).
  cbn [List.length]. lia.
Defined.

(* ================================================================== *)
(** ** More on the pinch *)
(* ================================================================== *)

(** X15.  The direction of a pinch: with finite contacts, a positive
    stored distance and a zoom within bounds, the new zoom is within
    bounds, it is not lower when the contacts are at least as far apart as
    before and not higher when they are at most as far apart. *)
Theorem pinch_direction (rect : DOMRect) (s : State) (z0 d x1 y1 x2 y2 : R) :
  zoomLevel s = Fin z0 -> 0.2 <= z0 <= 2.0 ->
  lastDistance s = Some (Fin d) -> 0 < d ->
  let cur := euclid (x1 - x2) (y1 - y2) in
  exists z1 : R,
    zoomLevel (handleTouchMove rect
                 [mkTouch (Fin x1) (Fin y1); mkTouch (Fin x2) (Fin y2)] s)
    = Fin z1
    /\ 0.2 <= z1 <= 2.0
    /\ (d <= cur -> z0 <= z1)
    /\ (cur <= d -> z1 <= z0).
Proof.
  intros Z B L Hd cur.
  rewrite (zoomLevel_pinch _ _ _ _ _ L), Z, touchDistance_fin. fold cur.
  rewrite div_fin by lra. cbn [mul]. rewrite clampZoom_fin.
  eexists. split; [reflexivity |]. split; [apply Rclamp_bounds |].
  set (r := cur / d).
  assert (E : cur = r * d) by (unfold r; field; lra).
  split; intros H.
  - assert (1 <= r) by nra.
    assert (z0 <= z0 * r) by nra.
    apply Rle_trans with (Rmin 2.0 (z0 * r)); [| apply Rmax_r].
    apply Rmin_glb; lra.
  - assert (0 <= cur) by apply euclid_nonneg.
    assert (r <= 1) by nra.
    assert (0 <= r) by nra.
    assert (z0 * r <= z0) by nra.
    apply Rmax_lub; [lra |].
    eapply Rle_trans; [apply Rmin_r | lra].
Qed.

Lemma pinch_direction_witness :
  exists z1 : R,
    zoomLevel (handleTouchMove rect0
                 [mkTouch (Fin 0) (Fin 0); mkTouch (Fin 150) (Fin 0)]
                 (setLastDistance (Some (Fin 100)) initialState))
    = Fin z1
    /\ 0.2 <= z1 <= 2.0
    /\ (100 <= euclid (0 - 150) (0 - 0) -> 1.0 <= z1)
    /\ (euclid (0 - 150) (0 - 0) <= 100 -> z1 <= 1.0).
Proof.
  apply (pinch_direction rect0 (setLastDistance (Some (Fin 100)) initialState)
           1.0 100 0 0 150 0 eq_refl); try reflexivity; lra.
Defined.

(* ================================================================== *)
(** ** The two variants of the canvas *)
(* ================================================================== *)

Lemma legacy_step (ev : Event) (lev : Legacy.Event) (s : State)
    (l : Legacy.State) :
  legacyEvent ev = Some lev -> sharedCells s = legacyCells l ->
  sharedCells (handle s ev) = legacyCells (Legacy.handle l lev).
Proof.
  intros T C. destruct s as [p z dr sp ld tip dbg zc].
  destruct l as [lp ldr lsp ltip ldbg].
  unfold sharedCells, legacyCells in C.
  cbn [position isDragging startPos showDebug Legacy.position
       Legacy.isDragging Legacy.startPos Legacy.showDebug] in C.
  injection C as -> -> -> ->.
  destruct ev; cbn [legacyEvent] in T.
  - destruct w as [w |]; [| discriminate T]. injection T as <-.
    cbn [handle Legacy.handle]. unfold centerEffect, Legacy.centerEffect.
    destruct (debugParam w); reflexivity.
  - injection T as <-. cbn [handle Legacy.handle].
    unfold handleKeyDown, Legacy.handleKeyDown.
    destruct (key_is key "d" "D"), (key_is key "c" "C"),
      (key_is key "r" "R"), (key_is key "+" "="), (key_is key "-" "_");
      reflexivity.
  - discriminate T.
  - injection T as <-. reflexivity.
  - injection T as <-. destruct ldr; reflexivity.
  - injection T as <-. reflexivity.
  - injection T as <-. cbn [handle Legacy.handle].
    destruct touches as [| t1 [| t2 [| t3 rest]]]; reflexivity.
  - destruct touches as [| t1 [| t2 [| t3 rest]]];
      cbn [List.length Nat.eqb] in T; try discriminate T;
      injection T as <-; destruct ld, ldr; reflexivity.
  - destruct touches as [| t1 rest]; [| discriminate T].
    injection T as <-. reflexivity.
  - discriminate T.
  - discriminate T.
  - discriminate T.
Qed.

(** X16.  The variant with zoom extends the variant without: on a run of
    events that both know (mount, keys, mouse, touch starts, touch moves
    of other than two contacts, the lift of the last contact), started
    from states that agree on them, position, dragging flag, drag anchor
    and debug flag of the variant with zoom are those of the variant
    without. *)
Theorem zoom_variant_extends_legacy
    (evs : list Event) (levs : list Legacy.Event) (s : State)
    (l : Legacy.State) :
  sharedCells s = legacyCells l ->
  legacyEvents evs = Some levs ->
  sharedCells (run s evs) = legacyCells (Legacy.run l levs).
Proof.
  revert levs s l. induction evs as [| ev evs IH]; intros levs s l C T.
  - injection T as <-. exact C.
  - cbn [legacyEvents] in T.
    destruct (legacyEvent ev) as [lev |] eqn:E; [| discriminate T].
    destruct (legacyEvents evs) as [ls |]; [| discriminate T].
    injection T as <-. unfold run, Legacy.run. cbn [fold_left].
    apply (IH ls); [| reflexivity]. apply legacy_step; assumption.
Qed.

Lemma zoom_variant_extends_legacy_witness :
  sharedCells
    (run initialState
       [ Mount (Some (mkWindow (Fin 1024) (Fin 768) true));
         KeyDown (mkWindow (Fin 1024) (Fin 768) true) "+";
         TouchStart [touchAt 100 100];
         TouchStart [touchAt 100 100; touchAt 200 100];
         TouchMove rect0 [touchAt 140 160];
         TouchEnd [] ])
  = legacyCells
      (Legacy.run Legacy.initialState
         [ Legacy.Mount (mkWindow (Fin 1024) (Fin 768) true);
           Legacy.KeyDown (mkWindow (Fin 1024) (Fin 768) true) "+";
           Legacy.TouchStart [touchAt 100 100];
           Legacy.TouchStart [touchAt 100 100; touchAt 200 100];
           Legacy.TouchMove [touchAt 140 160];
           Legacy.TouchEnd ]).
Proof.
  apply zoom_variant_extends_legacy; reflexivity.
Defined.

(* ================================================================== *)
(** ** Grid lines and coordinate labels *)
(* ================================================================== *)

Lemma In_countFrom (lo hi i : Z) :
  In i (countFrom lo hi) <-> (lo <= i <= hi)%Z.
Proof.
  unfold countFrom. rewrite in_map_iff. split.
  - intros (k & <- & Hk). apply in_seq in Hk. lia.
  - intros H. exists (Z.to_nat (i - lo)). split; [lia |].
    apply in_seq. lia.
Qed.

Lemma NoDup_by_nodup (l : list string) :
  nodup string_dec l = l -> NoDup l.
Proof. intros <-. apply NoDup_nodup. Qed.

Lemma gridLine_range (i : Z) :
  (- gridSize <= i <= gridSize)%Z ->
  1000 <= 5000 + IZR i * 400 <= 9000.
Proof.
  unfold gridSize. cbn [Z.opp]. intros [Hl Hu].
  apply IZR_le in Hl, Hu. lra.
Qed.

(** X17.  The grid lines: they are drawn in every state (the debug flag
    plays no part), 21 vertical and 21 horizontal ones with pairwise
    distinct keys, one through every grid index from -10 to 10, all
    between 1000 and 9000 pixels and so inside the 10000-pixel canvas, and
    every addition of [ADDITIONS] sits on a crossing of two of them. *)
Theorem grid_lines (s : State) :
  exists lines : list GridLine,
    renderGridLines s = Some lines
    /\ List.length lines = 42%nat
    /\ NoDup (map lineKey lines)
    /\ (forall i : Z, (-10 <= i <= 10)%Z ->
          In (Vertical ("v-" ++ showZ i) (Fin (5000 + IZR i * 400))) lines
          /\ In (Horizontal ("h-" ++ showZ i) (Fin (5000 + IZR i * 400)))
               lines)
    /\ (forall line : GridLine, In line lines ->
          exists (key : string) (v : R),
            (line = Vertical key (Fin v) \/ line = Horizontal key (Fin v))
            /\ 1000 <= v <= 9000)
    /\ (forall a : Addition, In a ADDITIONS ->
          exists kv kh : string,
            In (Vertical kv (x (gridToPixel (gridX a) (gridY a)))) lines
            /\ In (Horizontal kh (y (gridToPixel (gridX a) (gridY a))))
                 lines).
Proof.
  eexists. split; [reflexivity |].
  assert (Each : forall i : Z, (-10 <= i <= 10)%Z ->
            In (Vertical ("v-" ++ showZ i) (Fin (5000 + IZR i * 400)))
              (map (fun i => Vertical ("v-" ++ showZ i)
                                (GRID_centerX + Fin (IZR i) * GRID_cellSize)%js)
                 (countFrom (- gridSize) gridSize)
               ++ map (fun i => Horizontal ("h-" ++ showZ i)
                                  (GRID_centerY
                                   + Fin (IZR i) * GRID_cellSize)%js)
                    (countFrom (- gridSize) gridSize))%list
            /\ In (Horizontal ("h-" ++ showZ i) (Fin (5000 + IZR i * 400)))
                 (map (fun i => Vertical ("v-" ++ showZ i)
                                   (GRID_centerX
                                    + Fin (IZR i) * GRID_cellSize)%js)
                    (countFrom (- gridSize) gridSize)
                  ++ map (fun i => Horizontal ("h-" ++ showZ i)
                                     (GRID_centerY
                                      + Fin (IZR i) * GRID_cellSize)%js)
                       (countFrom (- gridSize) gridSize))%list).
  { intros i Hi. split; apply in_or_app; [left | right];
      apply in_map_iff; exists i;
      (split; [reflexivity | apply In_countFrom; unfold gridSize; lia]). }
  split; [reflexivity |]. split; [| split; [exact Each |]; split].
  - apply NoDup_by_nodup. vm_compute. reflexivity.
  - intros line Hin. apply in_app_or in Hin as [Hin | Hin];
      apply in_map_iff in Hin as (i & <- & Hi);
      apply In_countFrom in Hi;
      eexists; exists (5000 + IZR i * 400);
      (split; [| apply gridLine_range, Hi]); [left | right]; reflexivity.
  - intros a Ha. cbn [ADDITIONS In] in Ha.
    destruct Ha as [<- | [<- | [<- | []]]]; cbn [gridX gridY].
    + exists ("v-" ++ showZ 0), ("h-" ++ showZ 0).
      split; [apply (Each 0%Z) | apply (Each 0%Z)]; lia.
    + exists ("v-" ++ showZ 1), ("h-" ++ showZ 0).
      split; [apply (Each 1%Z) | apply (Each 0%Z)]; lia.
    + exists ("v-" ++ showZ 1), ("h-" ++ showZ (-1)).
      split; [apply (Each 1%Z) | apply (Each (-1)%Z)]; lia.
Qed.

Lemma denseInner_spec (cx cy : Z) :
  denseInner cx cy = false
  <-> (3 <= Z.abs cx \/ 3 <= Z.abs cy \/ (cx = 0 /\ cy = 0))%Z.
Proof.
  unfold denseInner.
  destruct (Z.ltb_spec (Z.abs cx) 3), (Z.ltb_spec (Z.abs cy) 3),
    (Z.eqb_spec cx 0), (Z.eqb_spec cy 0);
    cbn [andb negb]; split; intros; try discriminate; try reflexivity;
    lia.
Qed.

(** X18.  The coordinate labels: they are drawn in every state, one for
    exactly the cells [(cx, cy)] with both indices from -10 to 10 that are
    the origin or have an index of absolute value at least 3; each sits at
    [gridToPixel cx cy] and reads [cx,cy]; there are 417 of them and their
    keys are pairwise distinct. *)
Theorem coordinate_labels (s : State) :
  exists labels : list CoordLabel,
    renderCoordinates s = Some labels
    /\ (forall cx cy : Z,
          (exists l, In l labels /\ coordX l = cx /\ coordY l = cy)
          <-> (-10 <= cx <= 10 /\ -10 <= cy <= 10
               /\ (3 <= Z.abs cx \/ 3 <= Z.abs cy \/ (cx = 0 /\ cy = 0)))%Z)
    /\ (forall l : CoordLabel, In l labels ->
          coordAt l = gridToPixel (Fin (IZR (coordX l))) (Fin (IZR (coordY l)))
          /\ coordText l = showZ (coordX l) ++ "," ++ showZ (coordY l))
    /\ List.length labels = 417%nat
    /\ NoDup (map coordKey labels).
Proof.
  eexists. split; [reflexivity |]. split; [| split; [| split]].
  - intros cx cy. split.
    + intros (l & Hin & <- & <-).
      apply in_flat_map in Hin as (cx & Hx & Hin).
      apply in_flat_map in Hin as (cy & Hy & Hin).
      apply In_countFrom in Hx, Hy. unfold gridSize in Hx, Hy.
      destruct (denseInner cx cy) eqn:D; [destruct Hin |].
      destruct Hin as [<- | []]. cbn [coordX coordY].
      apply denseInner_spec in D. lia.
    + intros (Hx & Hy & D). apply denseInner_spec in D.
      eexists. split.
      * apply in_flat_map. exists cx.
        split; [apply In_countFrom; unfold gridSize; lia |].
        apply in_flat_map. exists cy.
        split; [apply In_countFrom; unfold gridSize; lia |].
        rewrite D. left. reflexivity.
      * split; reflexivity.
  - intros l Hin.
    apply in_flat_map in Hin as (cx & Hx & Hin).
    apply in_flat_map in Hin as (cy & Hy & Hin).
    destruct (denseInner cx cy); [destruct Hin |].
    destruct Hin as [<- | []]. split; reflexivity.
  - vm_compute. reflexivity.
  - apply NoDup_by_nodup. vm_compute. reflexivity.
Qed.

(* ================================================================== *)
(** ** The debug panel and the mount effect *)
(* ================================================================== *)

Lemma Math_round_integer (k : Z) : Math_round (Fin (IZR k)) = Fin (IZR k).
Proof.
  unfold Math_round. do 2 f_equal. apply Zfloor_eq. lra.
Qed.

Lemma Math_round_shift (v : R) (k : Z) :
  Math_round (Fin (v + IZR k)) = (Math_round (Fin v) + Fin (IZR k))%js.
Proof.
  unfold Math_round. cbn [add]. f_equal.
  replace (v + IZR k + / 2) with (v + / 2 + IZR k) by lra.
  rewrite Zfloor_addz. apply plus_IZR.
Qed.

(** X19.  The debug readout: after the mount effect or the re-centre key
    it shows [(5000, 5000)] whatever the size of the window, and moving
    the canvas by a whole number of pixels [(dx, dy)] lowers the readout
    by exactly [(dx, dy)]. *)
Theorem debug_view_readout (w h ox oy : R) (dx dy : Z) (dbg : bool) (s : State) :
  let win := mkWindow (Fin w) (Fin h) dbg in
  debugView win (centerEffect (Some win) s) = {| x := Fin 5000; y := Fin 5000 |}
  /\ debugView win (handleKeyDown win "c" s)
     = {| x := Fin 5000; y := Fin 5000 |}
  /\ debugView win
       (setPosition {| x := Fin (ox + IZR dx); y := Fin (oy + IZR dy) |} s)
     = {| x := (x (debugView win
                     (setPosition {| x := Fin ox; y := Fin oy |} s))
                - Fin (IZR dx))%js;
          y := (y (debugView win
                     (setPosition {| x := Fin ox; y := Fin oy |} s))
                - Fin (IZR dy))%js |}.
Proof.
  cbv zeta.
  assert (C : forall s0 : State,
             position s0 = centered (mkWindow (Fin w) (Fin h) dbg) ->
             debugView (mkWindow (Fin w) (Fin h) dbg) s0
             = {| x := Fin 5000; y := Fin 5000 |}).
  { intros s0 P. unfold debugView. rewrite P, centered_fin.
    cbn [x y innerWidth innerHeight neg]. rewrite !div_fin by lra.
    cbn [add].
    replace (- (w / 2 - 5000) + w / 2) with (IZR 5000) by lra.
    replace (- (h / 2 - 5000) + h / 2) with (IZR 5000) by lra.
    rewrite Math_round_integer. reflexivity. }
  split; [apply C; destruct dbg; reflexivity |].
  split; [apply C; reflexivity |].
  unfold debugView. cbn [position setPosition x y innerWidth innerHeight neg].
  rewrite !div_fin by lra. cbn [add].
  replace (- (ox + IZR dx) + w / 2) with (- ox + w / 2 + IZR (- dx))
    by (rewrite opp_IZR; lra).
  replace (- (oy + IZR dy) + h / 2) with (- oy + h / 2 + IZR (- dy))
    by (rewrite opp_IZR; lra).
  rewrite !Math_round_shift. unfold Math_round. cbn [add sub neg].
  rewrite !opp_IZR. reflexivity.
Qed.

(** X20.  The zoom percentage on the reset button and in the debug panel
    is a whole number from 20 to 200 whenever the zoom is within bounds,
    and [NaN] when the zoom is. *)
Theorem zoom_percent_range (s : State) :
  (zoomInBounds (zoomLevel s) ->
   exists p : Z, zoomPercent s = Fin (IZR p) /\ (20 <= p <= 200)%Z)
  /\ (zoomLevel s = NaN -> zoomPercent s = NaN).
Proof.
  split.
  - intros (z & Z & Hl & Hu). unfold zoomPercent. rewrite Z.
    cbn [mul Math_round]. eexists. split; [reflexivity |].
    pose proof (Zfloor_bound (z * 100 + / 2)) as [Lo Hi]. split.
    + apply Zfloor_lub. lra.
    + apply Z.lt_succ_r. apply lt_IZR. rewrite succ_IZR. lra.
  - intros Z. unfold zoomPercent. rewrite Z. reflexivity.
Qed.

(** X21.  The mount effect: without a window it does nothing; with one,
    the outcome does not depend on the position before, running it twice
    is running it once, the zoom buttons are shown exactly when the window
    is narrower than 768 pixels, the debug parameter can switch the debug
    view on but not off, and zoom and sessions are untouched. *)
Theorem mount_effect (w h : R) (dbg : bool) (p : Point) (s : State) :
  let win := mkWindow (Fin w) (Fin h) dbg in
  centerEffect None s = s
  /\ centerEffect (Some win) (setPosition p s) = centerEffect (Some win) s
  /\ centerEffect (Some win) (centerEffect (Some win) s)
     = centerEffect (Some win) s
  /\ (showZoomControls (centerEffect (Some win) s) = true <-> w < 768)
  /\ showDebug (centerEffect (Some win) s) = dbg || showDebug s
  /\ zoomLevel (centerEffect (Some win) s) = zoomLevel s
  /\ isDragging (centerEffect (Some win) s) = isDragging s
  /\ lastDistance (centerEffect (Some win) s) = lastDistance s.
Proof.
  cbv zeta. destruct s as [p0 z dr sp ld tip dbg0 zc].
  split; [reflexivity |]. split; [destruct dbg; reflexivity |].
  split; [destruct dbg; reflexivity |]. split.
  - unfold centerEffect. cbn [innerWidth debugParam].
    destruct dbg; cbn [showZoomControls setShowZoomControls];
      unfold JS.ltb; destruct (Rlt_dec w 768); split; intros; try lra;
      try reflexivity; discriminate.
  - destruct dbg; repeat split.
Qed.

(* ================================================================== *)
(** ** The price widget *)
(* ================================================================== *)

Lemma badge_of_fin (v : R) :
  (0 < v -> BitcoinPrice.badgeGreen (Some (Fin v)) = true
            /\ BitcoinPrice.badgeArrow (Some (Fin v)) = BitcoinPrice.ArrowUp)
  /\ (v < 0 -> BitcoinPrice.badgeGreen (Some (Fin v)) = false
               /\ BitcoinPrice.badgeArrow (Some (Fin v))
                  = BitcoinPrice.ArrowDown)
  /\ (v = 0 -> BitcoinPrice.badgeGreen (Some (Fin v)) = false
               /\ BitcoinPrice.badgeArrow (Some (Fin v))
                  = BitcoinPrice.NoArrow).
Proof.
  unfold BitcoinPrice.badgeGreen, BitcoinPrice.badgeArrow, truthy, js_geb.
  destruct (Req_dec_T v 0), (Rle_dec 0 v); cbn [andb];
    repeat split; intros; try reflexivity; lra.
Qed.

(** X22.  The sign of the 24-hour change on the price card: the badge is
    green and the arrow points up exactly for a strictly positive change,
    the arrow points down exactly for a negative one, and a change of
    zero, [NaN] or none at all gives a red badge without arrow. *)
Theorem badge_sign (c : option number) :
  (BitcoinPrice.badgeGreen c = true
   <-> exists n, c = Some n /\ (n = PInf \/ exists v, n = Fin v /\ 0 < v))
  /\ (BitcoinPrice.badgeArrow c = BitcoinPrice.ArrowUp
      <-> BitcoinPrice.badgeGreen c = true)
  /\ (BitcoinPrice.badgeArrow c = BitcoinPrice.ArrowDown
      <-> exists n, c = Some n /\ (n = NInf \/ exists v, n = Fin v /\ v < 0))
  /\ (c = None \/ c = Some NaN \/ c = Some (Fin 0) ->
      BitcoinPrice.badgeGreen c = false
      /\ BitcoinPrice.badgeArrow c = BitcoinPrice.NoArrow).
Proof.
  assert (Pos : forall n : number,
             (n = PInf \/ exists v, n = Fin v /\ 0 < v) ->
             forall u, n = Fin u -> 0 < u).
  { intros n [-> | (v & -> & Hv)] u E; [discriminate E |].
    injection E as <-. exact Hv. }
  assert (Neg : forall n : number,
             (n = NInf \/ exists v, n = Fin v /\ v < 0) ->
             forall u, n = Fin u -> u < 0).
  { intros n [-> | (v & -> & Hv)] u E; [discriminate E |].
    injection E as <-. exact Hv. }
  assert (Shape : forall (n : number) (P : R -> Prop) (i : number),
             (n = i \/ exists v, n = Fin v /\ P v) ->
             (n = i \/ exists v, n = Fin v)).
  { intros n P i [H | (v & H & _)]; [left | right; exists v]; exact H. }
  destruct c as [[v | | |] |];
    [ destruct (badge_of_fin v) as (P & N & Z);
      destruct (Rtotal_order v 0) as [Hv | [Hv | Hv]];
      [ destruct (N Hv) as [G A] | destruct (Z Hv) as [G A]
      | destruct (P Hv) as [G A] ]; rewrite G, A
    | cbn | cbn | cbn | cbn ];
    (split; [| split; [| split]];
     [split; intros H | split; intros H | split; intros H | intros H]);
    try discriminate H; try reflexivity;
    try (destruct H as (n & E & H); try discriminate E; injection E as <-;
         first [ pose proof (Pos _ H v eq_refl); lra
               | pose proof (Neg _ H v eq_refl); lra
               | apply Shape in H; destruct H as [H | (u & H)];
                 discriminate H ]);
    try (destruct H as [H | [H | H]]; try discriminate H;
         try (injection H as ->; lra); split; reflexivity);
    try (eexists; split; [reflexivity |];
         first [ left; reflexivity
               | right; exists v; split; [reflexivity | exact Hv] ]).
Qed.

(** X23.  The price card after any history of refreshes: while the last
    call is in flight it shows the skeleton, also when a price is known;
    once the last call has ended it shows what that call alone produced, a
    quote after a success and the error after a failure, although a
    failure keeps the price of the last success in the state. *)
Theorem price_card_shows_last_outcome
    (history : list FetchOutcome) (o : FetchOutcome) (s : BitcoinPrice.State) :
  let before := fold_left (fun st r => fetchBitcoinPrice r st) history s in
  BitcoinPrice.view (BitcoinPrice.fetchBegin before) = BitcoinPrice.Skeleton
  /\ BitcoinPrice.view (fetchBitcoinPrice o before) = viewOf o
  /\ BitcoinPrice.loading (fetchBitcoinPrice o before) = false
  /\ BitcoinPrice.price (fetchBitcoinPrice FetchFailed before)
     = BitcoinPrice.price before.
Proof.
  cbv zeta. split; [reflexivity |]. split; [| split; [| reflexivity]].
  - destruct o; reflexivity.
  - destruct o; reflexivity.
Qed.

(* ================================================================== *)
(** ** Instances of the two general results on runs *)
(* ================================================================== *)

Lemma zoom_bound_on_regular_runs_witness :
  zoomInBounds (zoomLevel (run initialState (firstn 2 pinchOutAndBack))).
Proof.
  apply (zoom_bound_on_regular_runs pinchOutAndBack initialState 2).
  - split; [apply zoomInBounds_default | exact I].
  - apply pinchOutAndBack_regular.
Defined.

(* ================================================================== *)
(** ** Nothing but finite numbers *)
(* ================================================================== *)

Lemma is_finite_inv (a : number) : is_finite a = true -> exists v, a = Fin v.
Proof. destruct a; try discriminate. intros _. eexists. reflexivity. Qed.

Lemma finiteTouch_inv (t : Touch) :
  finiteTouch t = true -> exists a b : R, t = mkTouch (Fin a) (Fin b).
Proof.
  destruct t as [a b]. unfold finiteTouch. cbn [clientX clientY].
  intros F. apply andb_prop in F as [Fa Fb].
  apply is_finite_inv in Fa as (u & ->). apply is_finite_inv in Fb as (v & ->).
  exists u, v. reflexivity.
Qed.

Lemma finiteRect_inv (r : DOMRect) :
  finiteRect r = true -> exists l t : R, r = mkRect (Fin l) (Fin t).
Proof.
  destruct r as [a b]. unfold finiteRect. cbn [left top].
  intros F. apply andb_prop in F as [Fa Fb].
  apply is_finite_inv in Fa as (u & ->). apply is_finite_inv in Fb as (v & ->).
  exists u, v. reflexivity.
Qed.

Lemma finiteWindow_centered (w : Window) :
  finiteWindow w = true -> finitePoint (centered w).
Proof.
  destruct w as [a b dbg]. unfold finiteWindow. cbn [innerWidth innerHeight].
  intros F. apply andb_prop in F as [Fa Fb].
  apply is_finite_inv in Fa as (u & ->). apply is_finite_inv in Fb as (v & ->).
  rewrite centered_fin. eexists. eexists. reflexivity.
Qed.

Lemma finiteData_finiteEvent (ev : Event) :
  finiteData ev = true -> finiteEvent ev = true.
Proof.
  destruct ev; cbn [finiteData finiteEvent]; intros F; try reflexivity;
    try exact F.
  - apply andb_prop in F as [F _]. apply andb_prop in F as [_ F]. exact F.
  - apply andb_prop in F as [_ F]. exact F.
Qed.

Lemma finite_anchorAt (t : Touch) (s : State) :
  finiteTouch t = true -> finitePoint (position s) ->
  finitePoint (anchorAt t s).
Proof.
  intros F (ox & oy & P). apply finiteTouch_inv in F as (a & b & ->).
  unfold anchorAt. rewrite P. eexists. eexists. reflexivity.
Qed.

Lemma finite_draggedTo (t : Touch) (s : State) :
  finiteTouch t = true -> finitePoint (startPos s) ->
  finitePoint (draggedTo t s).
Proof.
  intros F (ox & oy & P). apply finiteTouch_inv in F as (a & b & ->).
  unfold draggedTo. rewrite P. eexists. eexists. reflexivity.
Qed.

Lemma finite_points_step (s : State) (ev : Event) :
  finiteData ev = true -> degeneratePinch s ev = false -> allFinite s ->
  finitePoint (position (handle s ev))
  /\ finitePoint (startPos (handle s ev)).
Proof.
  intros F D (FP & FA & OK). destruct ev; cbn [handle finiteData] in *.
  - unfold centerEffect. destruct w as [w |]; [| split; assumption].
    split; [| destruct (debugParam w); exact FA].
    apply finiteWindow_centered in F. destruct (debugParam w); exact F.
  - apply finiteWindow_centered in F. unfold handleKeyDown.
    destruct (key_is key "d" "D"), (key_is key "c" "C"),
      (key_is key "r" "R"), (key_is key "+" "="), (key_is key "-" "_");
      split; first [exact FP | exact FA | exact F].
  - apply andb_prop in F as [F Fc]. apply andb_prop in F as [Fr Fd].
    destruct e as [c dY cl]. cbn [deltaY wheelClient] in Fd, Fc.
    apply is_finite_inv in Fd as (dy & ->).
    apply finiteTouch_inv in Fc as (cx & cy & ->).
    destruct c; [| split; assumption].
    destruct rect as [r |];
      [| rewrite handleWheel_no_rect;
         split; assumption].
    apply finiteRect_inv in Fr as (l & t & ->).
    destruct FP as (ox & oy & P).
    destruct OK as [(z0 & Z & B) _].
    destruct (Req_dec_T (Rmax 0.2 (Rmin 2.0 (wheelTarget z0 dy))) z0)
      as [E | N].
    + rewrite (handleWheel_same_zoom (Some (mkRect (Fin l) (Fin t)))
                 (mkWheel true (Fin dy) (mkTouch (Fin cx) (Fin cy)))
                 s z0 dy Z eq_refl E).
      split; [exists ox, oy; exact P | exact FA].
    + rewrite (handleWheel_fin s z0 ox oy dy cx cy l t Z P) by (lra || exact N).
      split; [eexists; eexists; reflexivity | exact FA].
  - split; [exact FP |]. apply finite_anchorAt; assumption.
  - unfold handleMouseMove. destruct (negb _); [split; assumption |].
    split; [| exact FA]. apply finite_draggedTo; assumption.
  - split; assumption.
  - unfold handleTouchStart.
    destruct touches as [| t1 [| t2 [| t3 rest]]]; try (split; assumption).
    split; [exact FP |]. cbn [forallb] in F. apply andb_prop in F as [F _].
    apply finite_anchorAt; assumption.
  - apply andb_prop in F as [Fr F].
    destruct touches as [| t1 [| t2 [| t3 rest]]].
    + split; assumption.
    + rewrite handleTouchMove_one. destruct (isDragging s);
        [| split; assumption].
      split; [| exact FA]. cbn [forallb] in F. apply andb_prop in F as [F _].
      apply finite_draggedTo; assumption.
    + destruct (lastDistance s) as [d |] eqn:L;
        [| unfold handleTouchMove; rewrite L; split; assumption].
      cbn [forallb] in F. apply andb_prop in F as [F1 F].
      apply andb_prop in F as [F2 _].
      apply finiteTouch_inv in F1 as (x1 & y1 & ->).
      apply finiteTouch_inv in F2 as (x2 & y2 & ->).
      apply finiteRect_inv in Fr as (l & t & ->).
      destruct FP as (ox & oy & P).
      pose proof OK as [(z0 & Z & B) Hd]. rewrite L in Hd.
      destruct Hd as (r & -> & Hr).
      unfold degeneratePinch in D. rewrite L, touchDistance_fin in D.
      destruct (Req_dec_T r 0) as [E | N].
      * destruct (Req_dec_T (euclid (x1 - x2) (y1 - y2)) 0) as [E' | N'].
        -- rewrite E, E' in D. unfold JS.eqb in D.
           destruct (Req_dec_T 0 0); [discriminate D | lra].
        -- pose proof (euclid_nonneg (x1 - x2) (y1 - y2)).
           rewrite (pinch_zero_anchor s z0 ox oy r x1 y1 x2 y2 l t Z P L E)
             by lra.
           split; [eexists; eexists; reflexivity | exact FA].
      * rewrite (pinch_fin s z0 ox oy r x1 y1 x2 y2 l t Z P L) by lra.
        split; [eexists; eexists; reflexivity | exact FA].
    + unfold handleTouchMove. destruct (lastDistance s); split; assumption.
  - unfold handleTouchEnd.
    destruct (_ <? _)%nat, (_ =? _)%nat; split; assumption.
  - split; assumption.
  - split; assumption.
  - split; assumption.
Qed.

Lemma allFinite_step (s : State) (ev : Event) :
  finiteData ev = true -> degeneratePinch s ev = false -> allFinite s ->
  allFinite (handle s ev).
Proof.
  intros F D A. destruct (finite_points_step s ev F D A) as [FP FA].
  split; [exact FP |]. split; [exact FA |].
  apply stateOK_handle; [apply finiteData_finiteEvent, F | exact D | apply A].
Qed.

(** X24.  Nothing but finite numbers: on a run whose events carry finite
    numbers only and in which no pinch move meets a zero stored distance
    with the contacts still on one point, position, drag anchor and stored
    distance are finite and the zoom is within bounds after every event;
    no [NaN] and no [Infinity] reaches the state. *)
Theorem finite_runs_stay_finite (evs : list Event) (s : State) (n : nat) :
  allFinite s -> finiteRun s evs -> allFinite (run s (firstn n evs)).
Proof.
  revert s n. induction evs as [| ev evs IH]; intros s n A R.
  - rewrite firstn_nil. exact A.
  - destruct n as [| n]; [exact A |].
    destruct R as (F & D & R). cbn [firstn]. unfold run. cbn [fold_left].
    apply IH; [| exact R]. apply allFinite_step; assumption.
Qed.

Lemma finite_runs_stay_finite_witness :
  allFinite (run initialState
               (firstn 3
                  [ Mount (Some (mkWindow (Fin 1024) (Fin 768) false));
                    Wheel (Some rect0) (ctrlWheel (-100) 300 200);
                    MouseDown (touchAt 100 100);
                    MouseMove (touchAt 140 160) ])).
Proof.
  apply finite_runs_stay_finite.
  - split; [exists 0, 0; reflexivity |]. split; [exists 0, 0; reflexivity |].
    split; [apply zoomInBounds_default | exact I].
  - cbn [finiteRun]. repeat split.
Defined.
